(** * cronJob.js: the incremental log-synchronisation poller

    A shallow embedding of [src/cronJob.js].  The JavaScript program polls
    JSON-RPC endpoints for factory logs, normalises every returned entry,
    hands it to a Supabase table and keeps one cursor per
    [chain-factory_address-strategy] key in the object [lastProcessedBlocks].

    Modelling conventions.
    - A JavaScript number that holds a block height, an index or a request
      id is [NaN] or an integer ([number]).  Every such value comes from
      [parseInt(_, 16)], from [+ 1] or from [requestId++].  [parseInt]
      rounds the integer it has read to the nearest double ([toDouble]).
      [+ 1] and [requestId++] are written as exact additions, which is what
      a double does for operands from -2^53 to 2^53 - 1: the embedding
      follows the program as long as the cursors and the request counter
      stay in that range.  Values from 2^1024 on, which a double turns into
      [Infinity], are outside the embedding.  [-0] is identified with [0]:
      no operation of the program tells them apart.
    - Strings are [string] (byte strings); only the ASCII white space is
      trimmed by [parseInt].
    - [lastProcessedBlocks] is a [gmap string number].  Every key the program
      uses contains a [-], so no lookup is answered by [Object.prototype].
    - Effects are threaded through a state-and-exception monad [M]; the
      outside world (the RPC endpoints and Supabase) is a family of oracles
      that may depend on everything the process has done so far. *)

From Stdlib Require Import ZArith NArith Ascii String List Lia Bool.
From stdpp Require Import gmap strings list pretty.

Local Open Scope Z_scope.

(** ** JavaScript numbers *)

Inductive number : Type :=
| NaN
| Int (z : Z).

Global Instance number_eq_dec : EqDecision number.
Proof. solve_decision. Defined.

(** [ToBoolean] on a number: [0] and [NaN] are falsy. *)
Definition truthy (n : number) : bool :=
  match n with
  | NaN => false
  | Int z => negb (z =? 0)
  end.

(** [n + 1]. *)
Definition succ (n : number) : number :=
  match n with
  | NaN => NaN
  | Int z => Int (z + 1)
  end.

(** [a > b]: every comparison with [NaN] is false. *)
Definition gt (a b : number) : bool :=
  match a, b with
  | Int x, Int y => y <? x
  | _, _ => false
  end.

(** *** [Number.prototype.toString(16)] *)

Definition hex_char (d : N) : ascii :=
  match d with
  | 0 => "0" | 1 => "1" | 2 => "2" | 3 => "3" | 4 => "4" | 5 => "5"
  | 6 => "6" | 7 => "7" | 8 => "8" | 9 => "9" | 10 => "a" | 11 => "b"
  | 12 => "c" | 13 => "d" | 14 => "e" | _ => "f"
  end%char%N.

Fixpoint hex_digits (fuel : nat) (n : N) (acc : string) : string :=
  match fuel with
  | O => acc
  | S fuel' =>
      if (n =? 0)%N then acc
      else hex_digits fuel' (n / 16)%N (String (hex_char (n mod 16)%N) acc)
  end.

Definition hex_of_N (n : N) : string :=
  if (n =? 0)%N then "0" else hex_digits (N.to_nat (N.size n)) n EmptyString.

Definition toString16 (n : number) : string :=
  match n with
  | NaN => "NaN"
  | Int (Zneg p) => "-" +:+ hex_of_N (Npos p)
  | Int z => hex_of_N (Z.to_N z)
  end.

(** [String(n)] for the numbers of the program: the decimal digits, which
    is what JavaScript writes for an integer below 10^21. *)
Definition toString (n : number) : string :=
  match n with
  | NaN => "NaN"
  | Int z => pretty z
  end.

(** *** [parseInt(s, 16)] *)

Definition hex_digit_value (c : ascii) : option N :=
  let n := N_of_ascii c in
  if ((48 <=? n) && (n <=? 57))%N then Some (n - 48)%N
  else if ((97 <=? n) && (n <=? 102))%N then Some (n - 87)%N
  else if ((65 <=? n) && (n <=? 70))%N then Some (n - 55)%N
  else None.

(** The value of the longest prefix of hexadecimal digits; [None] when that
    prefix is empty. *)
Fixpoint hex_prefix (s : string) (acc : N) (seen : bool) : option N :=
  match s with
  | EmptyString => if seen then Some acc else None
  | String c rest =>
      match hex_digit_value c with
      | Some d => hex_prefix rest (16 * acc + d)%N true
      | None => if seen then Some acc else None
      end
  end.

Definition is_white_space (c : ascii) : bool :=
  let n := N_of_ascii c in
  ((9 <=? n) && (n <=? 13) || (n =? 32))%N.

Fixpoint trim_start (s : string) : string :=
  match s with
  | String c rest => if is_white_space c then trim_start rest else s
  | EmptyString => s
  end.

Definition strip_sign (s : string) : Z * string :=
  match s with
  | String "-" rest => (-1, rest)
  | String "+" rest => (1, rest)
  | _ => (1, s)
  end.

Definition strip_0x (s : string) : string :=
  match s with
  | String "0" (String "x" rest) => rest
  | String "0" (String "X" rest) => rest
  | _ => s
  end.

(** The mathematical integer that [parseInt(s, 16)] reads off [s]. *)
Definition parseInt16 (s : string) : number :=
  let (sign, body) := strip_sign (trim_start s) in
  match hex_prefix (strip_0x body) 0 false with
  | Some n => Int (sign * Z.of_N n)
  | None => NaN
  end.

(** The largest magnitude up to which every integer is a double. *)
Definition MAX_EXACT : Z := 2 ^ 53.

(** The double nearest to an integer: 53 significant bits are kept and the
    rest is rounded to nearest, ties to the even significand. *)
Definition toDouble (z : Z) : Z :=
  let a := Z.abs z in
  let e := Z.log2 a - 52 in
  if e <=? 0 then z
  else
    let q := a / 2 ^ e in
    let r := a mod 2 ^ e in
    let half := 2 ^ (e - 1) in
    let q' := if r <? half then q
              else if half <? r then q + 1
              else if Z.even q then q else q + 1 in
    Z.sgn z * (q' * 2 ^ e).

(** [parseInt(s, 16)]: the integer read, as a number. *)
Definition parseInt (s : string) : number :=
  match parseInt16 s with
  | NaN => NaN
  | Int z => Int (toDouble z)
  end.

(** ** Data model *)

(** A row of [events.csv]. *)
Module Target.
Record t : Type := mk {
  chain : string;
  factory_address : string;
  exchange_name : string;
  event : string;
}.
End Target.

(** An element of the [result] array of an [eth_getLogs] response. *)
Module RawLogEntry.
Record t : Type := mk {
  transactionIndex : string;
  transactionHash : string;
  logIndex : string;
  removed : bool;
  blockNumber : string;
  blockHash : string;
}.
End RawLogEntry.

(** The object literal [logData] handed to Supabase. *)
Module LogData.
Record t : Type := mk {
  transaction_index : number;
  transaction_hash : string;
  log_index : number;
  removed : bool;
  block_number : number;
  block_hash : string;
  exchange : string;
  network : string;
  strategy : string;
}.
End LogData.

(** The body of an [axios.post]. *)
Inductive Request : Type :=
| eth_blockNumber (id : Z)
| eth_getBlockByNumber (id : Z)
| eth_getLogs (fromBlock toBlock address topic : string) (id : Z).

(** What the process does to the outside world, oldest first.  An
    [Insert] carries the [error] that Supabase answered. *)
Inductive IO : Type :=
| Logged (message : string)
| ConsoleError (label detail : string)
| ConsoleErrorResponse (label : string) (result : option (option string))
| Post (url : string) (body : Request)
| Insert (logData : LogData.t) (error : option string).

(** A range handed to [getLogs] whose log list came back, with the cursor
    key under which it was requested.  History variable: the program never
    reads it. *)
Record Range : Type := mkRange {
  r_key : string;
  r_from : number;
  r_to : number;
}.

Record World : Type := mkWorld {
  events : list Target.t;
  lastProcessedBlocks : gmap string number;
  requestId : Z;
  trace : list IO;
  fetched : list Range;
}.

Inductive Exn : Type :=
| Error (message : string)
| TypeError (message : string)
| AxiosError (message : string).

Definition message (e : Exn) : string :=
  match e with
  | Error m | TypeError m | AxiosError m => m
  end.

(** The error kinds of the specification, as the values the code throws. *)
Definition UnknownEventError (eventName : string) : Exn :=
  Error ("Unsupported event: " +:+ eventName).
Definition UnsupportedNetworkError (chain : string) : Exn :=
  Error ("Unsupported chain: " +:+ chain).
Definition ProtocolError : Exn :=
  Error "Invalid response structure for eth_getBlockByNumber".
Definition TransportError (m : string) : Exn := AxiosError m.

(** ** The outside world *)

Inductive Axios (A : Type) : Type :=
| Rejected (message : string)
| Resolved (result : A).
Arguments Rejected {A} message.
Arguments Resolved {A} result.

(** Every oracle answers a request from the history that precedes it.
    [result] is [None] when the JSON-RPC envelope has no (or a [null])
    [result]; a finalized block may come without its [number]. *)
Record Env : Type := mkEnv {
  ALCHEMY_API_KEY : string;
  answer_blockNumber : list IO → string → Request → Axios (option string);
  answer_getBlockByNumber :
    list IO → string → Request → Axios (option (option string));
  answer_getLogs :
    list IO → string → Request → Axios (option (list RawLogEntry.t));
  answer_insert : list IO → LogData.t → option string;
}.

(** ** State and exceptions *)

Inductive Res (A : Type) : Type :=
| Ok (a : A)
| Throw (e : Exn).
Arguments Ok {A} a.
Arguments Throw {A} e.

Definition M (A : Type) : Type := World → Res A * World.

Global Instance M_ret : MRet M := λ A a w, (Ok a, w).
Global Instance M_bind : MBind M := λ A B f m w,
  match m w with
  | (Ok a, w') => f a w'
  | (Throw e, w') => (Throw e, w')
  end.

Definition throw {A} (e : Exn) : M A := λ w, (Throw e, w).

(** [try { body } catch (error) { handler }]. *)
Definition try_catch {A} (body : M A) (handler : Exn → M A) : M A := λ w,
  match body w with
  | (Ok a, w') => (Ok a, w')
  | (Throw e, w') => handler e w'
  end.

Definition lift {A} (r : Res A) : M A := λ w, (r, w).

Definition with_trace (t : list IO) (w : World) : World :=
  mkWorld (events w) (lastProcessedBlocks w) (requestId w) t (fetched w).
Definition with_requestId (id : Z) (w : World) : World :=
  mkWorld (events w) (lastProcessedBlocks w) id (trace w) (fetched w).
Definition with_lastProcessedBlocks (m : gmap string number) (w : World) : World :=
  mkWorld (events w) m (requestId w) (trace w) (fetched w).
Definition with_fetched (l : list Range) (w : World) : World :=
  mkWorld (events w) (lastProcessedBlocks w) (requestId w) (trace w) l.

Definition emit (e : IO) : M unit := λ w,
  (Ok tt, with_trace (trace w ++ [e]) w).

(** [requestId++]. *)
Definition next_requestId : M Z := λ w,
  (Ok (requestId w), with_requestId (requestId w + 1) w).

Definition get_events : M (list Target.t) := λ w, (Ok (events w), w).

Definition get_lastProcessedBlock (key : string) : M (option number) := λ w,
  (Ok (lastProcessedBlocks w !! key), w).

Definition set_lastProcessedBlock (key : string) (n : number) : M unit := λ w,
  (Ok tt, with_lastProcessedBlocks (<[key := n]> (lastProcessedBlocks w)) w).

Definition record_fetched (r : Range) : M unit := λ w,
  (Ok tt, with_fetched (fetched w ++ [r]) w).

(** [await axios.post(url, body)]: the request goes out and the promise
    settles. *)
Definition axios_post {A} (answer : list IO → string → Request → Axios A)
    (url : string) (body : Request) : M A := λ w,
  let w' := with_trace (trace w ++ [Post url body]) w in
  match answer (trace w) url body with
  | Rejected m => (Throw (AxiosError m), w')
  | Resolved r => (Ok r, w')
  end.

(** [log(message)]: [console.log] and a time-stamped line of process.log. *)
Definition log (message : string) : M unit := emit (Logged message).

Definition console_error (label detail : string) : M unit :=
  emit (ConsoleError label detail).

(** ** [JSON.stringify(logData)] *)

Definition dquote : ascii := ascii_of_N 34.
Definition backslash : ascii := ascii_of_N 92.

Definition json_escape_char (c : ascii) : string :=
  let n := N_of_ascii c in
  if (n =? 34)%N then String backslash (String dquote EmptyString)
  else if (n =? 92)%N then String backslash (String backslash EmptyString)
  else if (n =? 8)%N then String backslash "b"
  else if (n =? 9)%N then String backslash "t"
  else if (n =? 10)%N then String backslash "n"
  else if (n =? 12)%N then String backslash "f"
  else if (n =? 13)%N then String backslash "r"
  else if (n <? 32)%N then
    String backslash
      ("u00" +:+ String (hex_char (n / 16)%N)
                   (String (hex_char (n mod 16)%N) EmptyString))
  else String c EmptyString.

Fixpoint json_escape (s : string) : string :=
  match s with
  | EmptyString => EmptyString
  | String c rest => json_escape_char c +:+ json_escape rest
  end.

Definition json_string (s : string) : string :=
  String dquote (json_escape s +:+ String dquote EmptyString).

(** A number that is not finite is written [null]. *)
Definition json_number (n : number) : string :=
  match n with
  | NaN => "null"
  | Int z => pretty z
  end.

Definition json_bool (b : bool) : string := if b then "true" else "false".

Definition json_member (name value : string) : string :=
  json_string name +:+ ":" +:+ value.

Definition JSON_stringify (d : LogData.t) : string :=
  "{" +:+ json_member "transaction_index" (json_number (LogData.transaction_index d))
  +:+ "," +:+ json_member "transaction_hash" (json_string (LogData.transaction_hash d))
  +:+ "," +:+ json_member "log_index" (json_number (LogData.log_index d))
  +:+ "," +:+ json_member "removed" (json_bool (LogData.removed d))
  +:+ "," +:+ json_member "block_number" (json_number (LogData.block_number d))
  +:+ "," +:+ json_member "block_hash" (json_string (LogData.block_hash d))
  +:+ "," +:+ json_member "exchange" (json_string (LogData.exchange d))
  +:+ "," +:+ json_member "network" (json_string (LogData.network d))
  +:+ "," +:+ json_member "strategy" (json_string (LogData.strategy d))
  +:+ "}".

(** ** The program *)

Section Program.
Context (env : Env).

(** [getLatestBlockNumber(RPC_URL, strategy)], lines 52-85. *)
Definition getLatestBlockNumber (RPC_URL strategy : string) : M number :=
  try_catch
    (if String.eqb strategy "eth_blockNumber" then
       id ← next_requestId;
       result ← axios_post (answer_blockNumber env) RPC_URL (eth_blockNumber id);
       mret (parseInt (default "undefined" result))
     else if String.eqb strategy "eth_getBlockByNumber" then
       id ← next_requestId;
       result ← axios_post (answer_getBlockByNumber env) RPC_URL
                  (eth_getBlockByNumber id);
       match result with
       | Some (Some (String c rest)) => mret (parseInt (String c rest))
       | _ =>
           emit (ConsoleErrorResponse "Unexpected response structure:" result);;
           throw ProtocolError
       end
     else throw (Error ("Unsupported strategy: " +:+ strategy)))
    (λ error,
       console_error ("Error in getLatestBlockNumber (" +:+ strategy +:+ "):")
         (message error);;
       throw error).

(** [getLogs(RPC_URL, contractAddress, eventTopic, fromBlock, toBlock)],
    lines 87-108. *)
Definition getLogs (RPC_URL contractAddress eventTopic : string)
    (fromBlock toBlock : number) : M (option (list RawLogEntry.t)) :=
  let fromHex := "0x" +:+ toString16 fromBlock in
  let toHex := "0x" +:+ toString16 toBlock in
  id ← next_requestId;
  axios_post (answer_getLogs env) RPC_URL
    (eth_getLogs fromHex toHex contractAddress eventTopic id).

(** [getRpcUrl(chain)], lines 110-127. *)
Definition getRpcUrl (chain : string) : Res string :=
  if String.eqb chain "celo" then
    Ok ("https://celo-mainnet.g.alchemy.com/v2/" +:+ ALCHEMY_API_KEY env)
  else if String.eqb chain "coinbase_base" then
    Ok ("https://base-mainnet.g.alchemy.com/v2/" +:+ ALCHEMY_API_KEY env)
  else if String.eqb chain "ethereum" then
    Ok ("https://eth-mainnet.g.alchemy.com/v2/" +:+ ALCHEMY_API_KEY env)
  else if String.eqb chain "fantom" then
    Ok ("https://fantom-mainnet.g.alchemy.com/v2/" +:+ ALCHEMY_API_KEY env)
  else if String.eqb chain "linea" then
    Ok ("https://linea-mainnet.g.alchemy.com/v2/" +:+ ALCHEMY_API_KEY env)
  else if String.eqb chain "mantle" then
    Ok ("https://mantle-mainnet.g.alchemy.com/v2/" +:+ ALCHEMY_API_KEY env)
  else Throw (UnsupportedNetworkError chain).

(** [getEventTopic(eventName)], lines 234-243. *)
Definition getEventTopic (eventName : string) : Res string :=
  if String.eqb eventName "PairCreated" then
    Ok "0x0d3648bd0f6ba80134a33ba9275ac585d9d315f0ad8355cddefde31afa28d0e9"
  else if String.eqb eventName "PoolCreated" then
    Ok "0x783cca1c0412dd0d695e784568c96da2e9c22ff989357a2e8b1d9b2b4e6b7118"
  else Throw (UnknownEventError eventName).

(** The cursor key, lines 180-181. *)
Definition cursorKey (event : Target.t) (strategy : string) : string :=
  let eventKey := Target.chain event +:+ "-" +:+ Target.factory_address event in
  eventKey +:+ "-" +:+ strategy.

(** [fromBlock], lines 181-183: the conditional tests the stored value for
    truthiness; a missing property reads as [undefined]. *)
Definition fromBlockOf (cursor : option number) (latestBlock : number) : number :=
  match cursor with
  | Some c => if truthy c then succ c else latestBlock
  | None => latestBlock
  end.

(** The object literal [logData], lines 206-216. *)
Definition normalize (logEntry : RawLogEntry.t) (event : Target.t)
    (strategy : string) : LogData.t :=
  {| LogData.transaction_index := parseInt (RawLogEntry.transactionIndex logEntry);
     LogData.transaction_hash := RawLogEntry.transactionHash logEntry;
     LogData.log_index := parseInt (RawLogEntry.logIndex logEntry);
     LogData.removed := RawLogEntry.removed logEntry;
     LogData.block_number := parseInt (RawLogEntry.blockNumber logEntry);
     LogData.block_hash := RawLogEntry.blockHash logEntry;
     LogData.exchange := Target.exchange_name event;
     LogData.network := Target.chain event;
     LogData.strategy := strategy |}.

(** [await supabase.from("logs").insert(logData)]: resolves with an
    [error] that is [null] on success. *)
Definition supabase_insert (logData : LogData.t) : M (option string) := λ w,
  let error := answer_insert env (trace w) logData in
  (Ok error, with_trace (trace w ++ [Insert logData error]) w).

(** The loop over [logs], lines 205-226. *)
Fixpoint insertLogs (logs : list RawLogEntry.t) (event : Target.t)
    (strategy : string) : M unit :=
  match logs with
  | [] => mret tt
  | logEntry :: rest =>
      let logData := normalize logEntry event strategy in
      error ← supabase_insert logData;
      match error with
      | Some m => log ("Error inserting data into Supabase: " +:+ m)
      | None => log ("Inserted log into Supabase: " +:+ JSON_stringify logData)
      end;;
      insertLogs rest event strategy
  end.

(** The message of lines 189-191. *)
Definition processingMessage (event : Target.t) (strategy : string)
    (fromBlock latestBlock : number) : string :=
  "Processing " +:+ Target.chain event +:+ " - "
  +:+ Target.exchange_name event +:+ " | Strategy: " +:+ strategy
  +:+ " | Blocks: " +:+ toString fromBlock +:+ " to "
  +:+ toString latestBlock.

(** The message of lines 202-204. *)
Definition foundMessage (logs : list RawLogEntry.t) (event : Target.t)
    (strategy : string) : string :=
  "Found " +:+ pretty (length logs) +:+ " logs for "
  +:+ Target.factory_address event +:+ " on " +:+ Target.chain event
  +:+ " using " +:+ strategy.

(** One turn of the loop of [processNetworkLogs], lines 180-230. *)
Definition processNetworkLogs_body (event : Target.t) (RPC_URL : string)
    (latestBlock : number) (strategy : string) : M unit :=
  let key := cursorKey event strategy in
  cursor ← get_lastProcessedBlock key;
  let fromBlock := fromBlockOf cursor latestBlock in
  if gt fromBlock latestBlock then mret tt
  else
    log (processingMessage event strategy fromBlock latestBlock);;
    eventTopic ← lift (getEventTopic (Target.event event));
    result ← getLogs RPC_URL (Target.factory_address event) eventTopic
               fromBlock latestBlock;
    match result with
    | None =>
        throw (TypeError "Cannot read properties of undefined (reading 'length')")
    | Some logs =>
        record_fetched (mkRange key fromBlock latestBlock);;
        match logs with
        | [] => mret tt
        | _ :: _ =>
            log (foundMessage logs event strategy);;
            insertLogs logs event strategy
        end;;
        set_lastProcessedBlock key latestBlock
    end.

(** [processNetworkLogs(networkEvents, RPC_URL, latestBlock, strategy)],
    lines 173-232. *)
Fixpoint processNetworkLogs (networkEvents : list Target.t) (RPC_URL : string)
    (latestBlock : number) (strategy : string) : M unit :=
  match networkEvents with
  | [] => mret tt
  | event :: rest =>
      processNetworkLogs_body event RPC_URL latestBlock strategy;;
      processNetworkLogs rest RPC_URL latestBlock strategy
  end.

(** *** [processLogs], lines 129-171 *)

(** The names an object literal inherits from [Object.prototype]: reading
    one of them on [{}] gives a truthy value that has no [push]. *)
Definition Object_prototype_names : list string :=
  ["constructor"; "__defineGetter__"; "__defineSetter__"; "hasOwnProperty";
   "__lookupGetter__"; "__lookupSetter__"; "isPrototypeOf";
   "propertyIsEnumerable"; "toString"; "valueOf"; "__proto__";
   "toLocaleString"].

(** [acc[chain].push(event)] on an own property; [None] when [chain] is
    not an own property of [acc]. *)
Fixpoint push_own (acc : list (string * list Target.t)) (chain : string)
    (event : Target.t) : option (list (string * list Target.t)) :=
  match acc with
  | [] => None
  | (k, v) :: rest =>
      if String.eqb k chain then Some ((k, v ++ [event]) :: rest)
      else (λ rest', (k, v) :: rest') <$> push_own rest chain event
  end.

(** The callback of [events.reduce], lines 132-138.  Own properties are
    kept in creation order. *)
Definition group_step (acc : list (string * list Target.t)) (event : Target.t)
    : Res (list (string * list Target.t)) :=
  let chain := Target.chain event in
  match push_own acc chain event with
  | Some acc' => Ok acc'
  | None =>
      if bool_decide (chain ∈ Object_prototype_names) then
        Throw (TypeError "acc[event.chain].push is not a function")
      else Ok (acc ++ [(chain, [event])])
  end.

Fixpoint reduce (events : list Target.t) (acc : list (string * list Target.t))
    : Res (list (string * list Target.t)) :=
  match events with
  | [] => Ok acc
  | event :: rest =>
      match group_step acc event with
      | Ok acc' => reduce rest acc'
      | Throw e => Throw e
      end
  end.

(** [Object.entries] lists the integer-like keys first, in ascending
    numeric order, then the other keys in creation order. *)
Fixpoint decimal_value (s : string) (acc : N) : option N :=
  match s with
  | EmptyString => Some acc
  | String c rest =>
      let n := N_of_ascii c in
      if ((48 <=? n) && (n <=? 57))%N
      then decimal_value rest (10 * acc + (n - 48))%N
      else None
  end.

Definition array_index (s : string) : option N :=
  match s with
  | EmptyString => None
  | String "0" EmptyString => Some 0%N
  | String "0" _ => None
  | _ =>
      match decimal_value s 0 with
      | Some n => if (n <=? 4294967294)%N then Some n else None
      | None => None
      end
  end.

Fixpoint insert_by_index {A} (i : N) (x : A) (l : list (N * A)) : list (N * A) :=
  match l with
  | [] => [(i, x)]
  | (j, y) :: rest =>
      if (i <=? j)%N then (i, x) :: l else (j, y) :: insert_by_index i x rest
  end.

Fixpoint Object_entries_split {A} (own : list (string * A))
    : list (N * (string * A)) * list (string * A) :=
  match own with
  | [] => ([], [])
  | (k, v) :: rest =>
      let (indexed, named) := Object_entries_split rest in
      match array_index k with
      | Some i => (insert_by_index i (k, v) indexed, named)
      | None => (indexed, (k, v) :: named)
      end
  end.

Definition Object_entries {A} (own : list (string * A)) : list (string * A) :=
  let (indexed, named) := Object_entries_split own in
  map snd indexed ++ named.

(** One turn of the loop over the networks, lines 141-165. *)
Definition processLogs_network (entry : string * list Target.t) : M unit :=
  let (network, networkEvents) := entry in
  RPC_URL ← lift (getRpcUrl network);
  latestBlockEthBlockNumber ← getLatestBlockNumber RPC_URL "eth_blockNumber";
  latestBlockEthGetBlockByNumber ←
    getLatestBlockNumber RPC_URL "eth_getBlockByNumber";
  processNetworkLogs networkEvents RPC_URL latestBlockEthBlockNumber
    "eth_blockNumber";;
  processNetworkLogs networkEvents RPC_URL latestBlockEthGetBlockByNumber
    "eth_getBlockByNumber".

Fixpoint processLogs_networks (entries : list (string * list Target.t))
    : M unit :=
  match entries with
  | [] => mret tt
  | entry :: rest => processLogs_network entry;; processLogs_networks rest
  end.

(** The [try] block of [processLogs]. *)
Definition processLogs_try : M unit :=
  events ← get_events;
  eventsByNetwork ← lift (reduce events []);
  processLogs_networks (Object_entries eventsByNetwork).

Definition processLogs : M unit :=
  try_catch processLogs_try
    (λ error,
       console_error "Error processing logs:" (message error);;
       log ("Error processing logs: " +:+ message error)).

(** [runContinuously], lines 245-253: the first [iterations] turns of the
    [while (true)] loop.  [Ok] says that all of them ran and the loop goes
    on; [Throw] says that an exception left the loop. *)
Fixpoint runContinuously (iterations : nat) : M unit :=
  match iterations with
  | O => mret tt
  | S n =>
      try_catch processLogs
        (λ error, log ("Error in continuous execution: " +:+ message error));;
      runContinuously n
  end.

End Program.

(** The state of the process when [runContinuously] starts. *)
Definition initial (events : list Target.t) : World :=
  mkWorld events ∅ 1 [] [].

(** ** Observations *)

(** The records handed to Supabase in a piece of history, with the answers. *)
Definition inserts (t : list IO) : list (LogData.t * option string) :=
  omap (λ e, match e with Insert d r => Some (d, r) | _ => None end) t.

(** The HTTP requests of a piece of history. *)
Definition posts (t : list IO) : list (string * Request) :=
  omap (λ e, match e with Post url body => Some (url, body) | _ => None end) t.

(** The [fromBlock] that a turn of [processNetworkLogs] computes in [w]. *)
Definition fromBlockIn (w : World) (event : Target.t) (strategy : string)
    (latestBlock : number) : number :=
  fromBlockOf (lastProcessedBlocks w !! cursorKey event strategy) latestBlock.

(** The test of line 185. *)
Definition skipped (w : World) (event : Target.t) (strategy : string)
    (latestBlock : number) : bool :=
  gt (fromBlockIn w event strategy latestBlock) latestBlock.

(** The body of the [eth_getLogs] request that a turn sends from [w]. *)
Definition getLogsRequest (w : World) (event : Target.t) (strategy : string)
    (latestBlock : number) (eventTopic : string) : Request :=
  eth_getLogs ("0x" +:+ toString16 (fromBlockIn w event strategy latestBlock))
    ("0x" +:+ toString16 latestBlock) (Target.factory_address event)
    eventTopic (requestId w).

(** The world once that request has gone out. *)
Definition requested (w : World) (event : Target.t) (RPC_URL strategy : string)
    (latestBlock : number) (eventTopic : string) : World :=
  with_trace
    (trace w
     ++ [Logged (processingMessage event strategy
                   (fromBlockIn w event strategy latestBlock) latestBlock);
         Post RPC_URL (getLogsRequest w event strategy latestBlock eventTopic)])
    (with_requestId (requestId w + 1) w).

(** What the endpoint answers to it. *)
Definition getLogsAnswer (env : Env) (w : World) (event : Target.t)
    (RPC_URL strategy : string) (latestBlock : number) (eventTopic : string)
    : Axios (option (list RawLogEntry.t)) :=
  answer_getLogs env
    (trace w
     ++ [Logged (processingMessage event strategy
                   (fromBlockIn w event strategy latestBlock) latestBlock)])
    RPC_URL (getLogsRequest w event strategy latestBlock eventTopic).

(** An [eth_getLogs] request for the blocks [f] to [L] with [f <= L]. *)
Definition ordered_upto (L : Z) (body : Request) : Prop :=
  ∃ (f : Z) (address topic : string) (id : Z),
    body = eth_getLogs ("0x" +:+ toString16 (Int f)) ("0x" +:+ toString16 (Int L))
             address topic id
    ∧ f ≤ L.

(** A request that, if it is an [eth_getLogs], asks for an ordered range. *)
Definition ordered (p : string * Request) : Prop :=
  match p.2 with
  | eth_getLogs fromHex toHex _ _ _ =>
      ∃ f L : Z, fromHex = "0x" +:+ toString16 (Int f)
                 ∧ toHex = "0x" +:+ toString16 (Int L) ∧ f ≤ L
  | _ => True
  end.

(** The ranges of a history that were fetched under [key]. *)
Definition rangesOf (key : string) (l : list Range) : list (number * number) :=
  omap (λ r, if String.eqb (r_key r) key then Some (r_from r, r_to r) else None) l.

(** Consecutive fetched ranges: each one starts above the end of the one
    before it. *)
Fixpoint ascending (l : list (number * number)) : bool :=
  match l with
  | [] => true
  | (_, to) :: rest =>
      match rest with
      | [] => true
      | (from', _) :: _ => gt from' to && ascending rest
      end
  end.

(** The chains of the [switch] of [getRpcUrl] and the events of the
    [switch] of [getEventTopic]. *)
Definition supported_chains : list string :=
  ["celo"; "coinbase_base"; "ethereum"; "fantom"; "linea"; "mantle"].
Definition known_events : list string := ["PairCreated"; "PoolCreated"].

(** *** Relations between the worlds before and after a computation *)

(** [m] takes every world to one that is [R]-related to it, whether it
    returns or throws. *)
Definition preserves (R : relation World) {A} (m : M A) : Prop :=
  ∀ w, R w (snd (m w)).

(** The cursors and the fetched ranges are untouched. *)
Definition same_store (w w' : World) : Prop :=
  lastProcessedBlocks w' = lastProcessedBlocks w ∧ fetched w' = fetched w.

(** The history grows, and every request it gains satisfies [P]. *)
Definition grows (P : string * Request → Prop) (w w' : World) : Prop :=
  ∃ delta, trace w' = trace w ++ delta ∧ Forall P (posts delta).


(** *** The cursor along a run *)

(** Every stored cursor is an integer that is at least [lo]. *)
Definition bounded_below (lo : Z) (w : World) : Prop :=
  ∀ key v, lastProcessedBlocks w !! key = Some v → ∃ c, v = Int c ∧ lo ≤ c.

(** The cursor of a key is the end of the last range fetched under it, and
    is unset as long as nothing was fetched. *)
Definition cursor_is_last_end (w : World) : Prop :=
  ∀ key, lastProcessedBlocks w !! key = snd <$> last (rangesOf key (fetched w)).

Definition ranges_ascend (w : World) : Prop :=
  ∀ key, ascending (rangesOf key (fetched w)) = true.

Definition never_decreases (w w' : World) : Prop :=
  ∀ key c, lastProcessedBlocks w !! key = Some (Int c) →
    ∃ c', lastProcessedBlocks w' !! key = Some (Int c') ∧ c ≤ c'.

Definition consistent (lo : Z) (w : World) : Prop :=
  bounded_below lo w ∧ cursor_is_last_end w ∧ (0 < lo → ranges_ascend w).

Definition advances (lo : Z) (w w' : World) : Prop :=
  consistent lo w → consistent lo w' ∧ never_decreases w w'.

(** The endpoints answer the two latest-block queries with quantities that
    decode to integers from [lo] upwards (or fail). *)
Definition heights_from (lo : Z) (env : Env) : Prop :=
  (∀ history url body,
     match answer_blockNumber env history url body with
     | Resolved (Some s) => ∃ L, parseInt16 s = Int L ∧ lo ≤ L
     | Resolved None => False
     | Rejected _ => True
     end)
  ∧ (∀ history url body,
       match answer_getBlockByNumber env history url body with
       | Resolved (Some (Some s)) => ∃ L, parseInt16 s = Int L ∧ lo ≤ L
       | _ => True
       end).


(** The heights that the endpoints report stay below [hi]. *)
Definition heights_below (hi : Z) (env : Env) : Prop :=
  (∀ history url body s L,
     answer_blockNumber env history url body = Resolved (Some s) →
     parseInt16 s = Int L → L < hi)
  ∧ (∀ history url body s L,
       answer_getBlockByNumber env history url body = Resolved (Some (Some s)) →
       parseInt16 s = Int L → L < hi).

(** ** A test bench *)

(** Every endpoint answers, no log is ever found, every insert succeeds. *)
Definition quiet : Env :=
  mkEnv "KEY" (λ _ _ _, Resolved (Some "0x64"))
    (λ _ _ _, Resolved (Some (Some "0x64")))
    (λ _ _ _, Resolved (Some [])) (λ _ _, None).

(** The first [eth_getLogs] request is answered, the later ones fail. *)
Definition flaky : Env :=
  mkEnv "KEY" (λ _ _ _, Resolved (Some "0x64"))
    (λ _ _ _, Resolved (Some (Some "0x64")))
    (λ _ _ body,
       match body with
       | eth_getLogs _ _ _ _ 1 => Resolved (Some [])
       | _ => Rejected "Network Error"
       end)
    (λ _ _, None).

(** No endpoint can be reached. *)
Definition offline : Env :=
  mkEnv "KEY" (λ _ _ _, Rejected "Network Error")
    (λ _ _ _, Rejected "Network Error") (λ _ _ _, Rejected "Network Error")
    (λ _ _, None).

(** The finalized block comes back without a [result]. *)
Definition malformed : Env :=
  mkEnv "KEY" (λ _ _ _, Resolved (Some "0x64")) (λ _ _ _, Resolved None)
    (λ _ _ _, Resolved (Some [])) (λ _ _, None).

(** The head of the chain comes back without a [result]. *)
Definition headless : Env :=
  mkEnv "KEY" (λ _ _ _, Resolved None) (λ _ _ _, Resolved (Some (Some "0x64")))
    (λ _ _ _, Resolved (Some [])) (λ _ _, None).

Definition rawLog (logIndex blockNumber : string) : RawLogEntry.t :=
  RawLogEntry.mk "0x0" "0xaa" logIndex false blockNumber "0xbb".

(** Three logs come back; Supabase refuses the second record it is given. *)
Definition sink_refuses_second : Env :=
  mkEnv "KEY" (λ _ _ _, Resolved (Some "0x64"))
    (λ _ _ _, Resolved (Some (Some "0x64")))
    (λ _ _ _, Resolved (Some [rawLog "0x0" "0x64"; rawLog "0x1" "0x64";
                              rawLog "0x2" "0x64"]))
    (λ history _,
       if Nat.eqb (length (inserts history)) 1 then Some "duplicate key"
       else None).

Definition uniswap : Target.t :=
  Target.mk "ethereum" "0xABC" "uniswap" "PairCreated".

Definition on_solana : Target.t :=
  Target.mk "solana" "0xABC" "raydium" "PoolCreated".

Definition swaps : Target.t :=
  Target.mk "ethereum" "0xABC" "uniswap" "Swap".

Definition uniswap_key : string := "ethereum-0xABC-eth_blockNumber".

(** A world in which the cursor of [uniswap_key] stands at [c]. *)
Definition synced (c : number) : World :=
  mkWorld [uniswap] {[ uniswap_key := c ]} 2 [] [].

(** ** Further observations *)

(** No character of [s] is a dash. *)
Fixpoint no_dash (s : string) : bool :=
  match s with
  | EmptyString => true
  | String c rest => negb (Ascii.eqb c "-") && no_dash rest
  end.

(** The two strategies that [processLogs] runs. *)
Definition strategies : list string := ["eth_blockNumber"; "eth_getBlockByNumber"].

Definition request_id (body : Request) : Z :=
  match body with
  | eth_blockNumber id | eth_getBlockByNumber id | eth_getLogs _ _ _ _ id => id
  end.

(** The requests that the history gains carry the ids [requestId w],
    [requestId w + 1], ... in this order, and [requestId] ends one above the
    last of them. *)
Definition numbered (w w' : World) : Prop :=
  ∃ delta,
    trace w' = trace w ++ delta
    ∧ (λ p, request_id p.2) <$> posts delta
      = seqZ (requestId w) (Z.of_nat (length (posts delta)))
    ∧ requestId w' = requestId w + Z.of_nat (length (posts delta)).

(** Nothing is left to fetch for [key] at the latest block [L]: its cursor
    is a non-zero integer from [L] upwards. *)
Definition settled (L : Z) (w : World) (key : string) : Prop :=
  ∃ c, lastProcessedBlocks w !! key = Some (Int c) ∧ c ≠ 0 ∧ L ≤ c.

(** The value of the own property [key] of an object whose own properties
    are [acc]. *)
Fixpoint own_property {A} (acc : list (string * A)) (key : string) : option A :=
  match acc with
  | [] => None
  | (k, v) :: rest => if String.eqb k key then Some v else own_property rest key
  end.

(** The rows of [events] on [chain], in the order of the file. *)
Definition rows_on (chain : string) (events : list Target.t) : list Target.t :=
  filter (λ event, Target.chain event = chain) events.

(** What [reduce] has built after the rows [seen]. *)
Definition grouped (seen : list Target.t) (acc : list (string * list Target.t))
    : Prop :=
  NoDup acc.*1
  ∧ (∀ key, key ∈ acc.*1 → key ∉ Object_prototype_names)
  ∧ ∀ key, own_property acc key
           = match rows_on key seen with
             | [] => None
             | rows => Some rows
             end.

Definition is_getLogs (p : string * Request) : Prop :=
  match p.2 with
  | eth_getLogs _ _ _ _ _ => True
  | _ => False
  end.

Definition same_events (w w' : World) : Prop := events w' = events w.

(** [key] is the cursor key of a row of [events0] under one of the two
    strategies. *)
Definition listed (events0 : list Target.t) (key : string) : Prop :=
  ∃ event strategy,
    event ∈ events0 ∧ strategy ∈ strategies ∧ key = cursorKey event strategy.

(** No cursor is removed, and a cursor appears only under a listed key. *)
Definition tracks (events0 : list Target.t) (w w' : World) : Prop :=
  (∀ key, is_Some (lastProcessedBlocks w !! key) →
          is_Some (lastProcessedBlocks w' !! key))
  ∧ (∀ key, is_Some (lastProcessedBlocks w' !! key) →
            is_Some (lastProcessedBlocks w !! key) ∨ listed events0 key).

(** Every endpoint answers: the latest-block queries with the quantity of a
    positive height, [eth_getLogs] with a list of logs. *)
Definition healthy (env : Env) : Prop :=
  (∀ history url body, ∃ s L,
     answer_blockNumber env history url body = Resolved (Some s)
     ∧ parseInt16 s = Int L ∧ 0 < L)
  ∧ (∀ history url body, ∃ s L,
       answer_getBlockByNumber env history url body = Resolved (Some (Some s))
       ∧ parseInt16 s = Int L ∧ 0 < L)
  ∧ (∀ history url body, ∃ logs,
       answer_getLogs env history url body = Resolved (Some logs)).

(** The cursor of [key] is set, to a positive block. *)
Definition synchronised (w : World) (key : string) : Prop :=
  ∃ c, lastProcessedBlocks w !! key = Some (Int c) ∧ 0 < c.


(** * Properties *)

(** ** Hexadecimal quantities *)

Lemma hex_digit_value_hex_char (d : N) :
  (d < 16)%N → hex_digit_value (hex_char d) = Some d.
Proof.
  intros Hd. destruct d as [|p]; [reflexivity|].
  do 4 (try destruct p as [p|p|]; try reflexivity); lia.
Qed.

Lemma hex_prefix_hex_digits (fuel : nat) :
  ∀ (n : N) (s : string) (a : N) (b : bool),
    (n < 2 ^ N.of_nat fuel)%N →
    ∃ k : N, hex_prefix (hex_digits fuel n s) a b
             = hex_prefix s (a * 16 ^ k + n)%N (b || negb (n =? 0)%N).
Proof.
  induction fuel as [|fuel IH]; intros n s a b Hn.
  - exists 0%N. simpl in *. assert (n = 0%N) as -> by lia.
    simpl. rewrite orb_false_r. f_equal. lia.
  - cbn [hex_digits]. destruct (N.eqb_spec n 0) as [->|Hne].
    + exists 0%N. simpl. rewrite orb_false_r. f_equal. lia.
    + destruct (IH (n / 16)%N (String (hex_char (n mod 16)%N) s) a b) as [k Hk].
      { rewrite Nat2N.inj_succ, N.pow_succ_r' in Hn.
        apply N.Div0.div_lt_upper_bound. lia. }
      exists (k + 1)%N. rewrite Hk. cbn [hex_prefix].
      rewrite hex_digit_value_hex_char by (apply N.mod_lt; lia).
      rewrite orb_true_r. f_equal.
      rewrite N.pow_add_r, N.pow_1_r.
      pose proof (N.Div0.div_mod n 16). lia.
Qed.

Lemma hex_prefix_hex_of_N (n : N) : hex_prefix (hex_of_N n) 0 false = Some n.
Proof.
  unfold hex_of_N. destruct (N.eqb_spec n 0) as [->|Hne]; [reflexivity|].
  destruct (hex_prefix_hex_digits (N.to_nat (N.size n)) n EmptyString 0 false)
    as [k Hk].
  { rewrite N2Nat.id. apply N.size_gt. }
  rewrite Hk. simpl. destruct (N.eqb_spec n 0); [contradiction|reflexivity].
Qed.

(** [parseInt] undoes the quantity encoding ["0x" + n.toString(16)]. *)
Lemma parseInt16_quantity (n : N) :
  parseInt16 ("0x" +:+ hex_of_N n) = Int (Z.of_N n).
Proof.
  change (parseInt16 ("0x" +:+ hex_of_N n))
    with (match hex_prefix (hex_of_N n) 0 false with
          | Some m => Int (1 * Z.of_N m)
          | None => NaN
          end).
  rewrite hex_prefix_hex_of_N. f_equal. lia.
Qed.

(** Integers of magnitude up to 2^53 are doubles. *)
Lemma toDouble_exact z : Z.abs z ≤ MAX_EXACT → toDouble z = z.
Proof.
  unfold MAX_EXACT, toDouble. intros Hz.
  destruct (Z.leb_spec (Z.log2 (Z.abs z) - 52) 0) as [|He]; [reflexivity|].
  assert (Ha : Z.abs z = 2 ^ 53).
  { assert (0 < Z.abs z) as Hpos.
    { destruct (Z.eq_dec (Z.abs z) 0) as [E|]; [rewrite E in He; simpl in He|]; lia. }
    pose proof (Z.log2_spec _ Hpos) as [Hlo _].
    assert (2 ^ 53 <= 2 ^ Z.log2 (Z.abs z)) by (apply Z.pow_le_mono_r; lia).
    lia. }
  assert (z = 2 ^ 53 ∨ z = - 2 ^ 53) as [->| ->] by lia; reflexivity.
Qed.

(** Rounding never takes a value below an exact bound it has reached. *)
Lemma toDouble_ge lo z : 0 ≤ lo ≤ MAX_EXACT → lo ≤ z → lo ≤ toDouble z.
Proof.
  unfold MAX_EXACT. intros Hlo Hz.
  destruct (Z.le_gt_cases z (2 ^ 53)) as [Hsmall|Hbig].
  { rewrite toDouble_exact; [done|unfold MAX_EXACT; lia]. }
  unfold toDouble. rewrite Z.abs_eq by lia.
  assert (53 <= Z.log2 z).
  { change 53 with (Z.log2 (2 ^ 53)). apply Z.log2_le_mono. lia. }
  destruct (Z.leb_spec (Z.log2 z - 52) 0) as [|_]; [lia|].
  set (e := Z.log2 z - 52).
  assert (0 < 2 ^ e) by (apply Z.pow_pos_nonneg; lia).
  assert (2 ^ 52 <= z / 2 ^ e) as Hq.
  { apply Z.div_le_lower_bound; [done|].
    rewrite <- Z.pow_add_r by lia. replace (e + 52) with (Z.log2 z) by lia.
    apply Z.log2_spec. lia. }
  assert (2 <= 2 ^ e).
  { change 2 with (2 ^ 1) at 1. apply Z.pow_le_mono_r; lia. }
  rewrite Z.sgn_pos by lia.
  set (q := z / 2 ^ e) in *.
  assert (q <= (if z mod 2 ^ e <? 2 ^ (e - 1) then q
               else if 2 ^ (e - 1) <? z mod 2 ^ e then q + 1
               else if Z.even q then q else q + 1)) as Hq'.
  { repeat case_match; lia. }
  nia.
Qed.

(** Two integers out of three are lost between 2^53 and 2^54, and
    [0xffffffffffffffff] reads as 2^64. *)
Example toDouble_rounds :
  toDouble (2 ^ 53 + 1) = 2 ^ 53
  ∧ toDouble (2 ^ 53 + 2) = 2 ^ 53 + 2
  ∧ toDouble (2 ^ 53 + 3) = 2 ^ 53 + 4
  ∧ toDouble (- (2 ^ 53 + 1)) = - 2 ^ 53
  ∧ parseInt "0xffffffffffffffff" = Int (2 ^ 64).
Proof. repeat split. Qed.



(** ** One turn of [processNetworkLogs] *)

Ltac world_simpl :=
  cbn [events lastProcessedBlocks requestId trace fetched with_trace
         with_requestId with_lastProcessedBlocks with_fetched].

Lemma posts_app (t1 t2 : list IO) : posts (t1 ++ t2) = posts t1 ++ posts t2.
Proof. apply omap_app. Qed.

Lemma inserts_app (t1 t2 : list IO) : inserts (t1 ++ t2) = inserts t1 ++ inserts t2.
Proof. apply omap_app. Qed.

Section Steps.
Context (env : Env).

(** The loop over the logs never throws: it hands every entry to Supabase
    in order, logs every refusal, and touches nothing but the history. *)
Lemma insertLogs_spec (event : Target.t) (strategy : string)
    (logs : list RawLogEntry.t) :
  ∀ w, ∃ delta,
    insertLogs env logs event strategy w
      = (Ok tt, with_trace (trace w ++ delta) w)
    ∧ (inserts delta).*1 = map (λ e, normalize e event strategy) logs
    ∧ posts delta = []
    ∧ (∀ d m, Insert d (Some m) ∈ delta →
         Logged ("Error inserting data into Supabase: " +:+ m) ∈ delta).
Proof.
  induction logs as [|logEntry rest IH]; intros w.
  - exists []. cbn. rewrite app_nil_r. destruct w; repeat split; try done.
    intros d m H. by apply elem_of_nil in H.
  - cbn [insertLogs]. unfold mbind, M_bind, supabase_insert.
    set (d := normalize logEntry event strategy).
    destruct (answer_insert env (trace w) d) as [m|] eqn:Hans;
      unfold log, emit;
      match goal with
      | |- context [insertLogs env rest event strategy ?w'] =>
          destruct (IH w') as (delta & -> & Hins & Hposts & Hlogged)
      end;
      world_simpl.
    + exists (Insert d (Some m)
              :: Logged ("Error inserting data into Supabase: " +:+ m) :: delta).
      split; [by rewrite <- !app_assoc|].
      split; [cbn; by rewrite <- Hins|]. split; [exact Hposts|].
      intros d' m' [Heq|Hin]%elem_of_cons.
      * injection Heq as -> ->. apply elem_of_cons. right.
        apply elem_of_cons. by left.
      * apply elem_of_cons in Hin as [?|Hin]; [discriminate|].
        do 2 (apply elem_of_cons; right). by apply (Hlogged d').
    + exists (Insert d None
              :: Logged ("Inserted log into Supabase: " +:+ JSON_stringify d)
              :: delta).
      split; [by rewrite <- !app_assoc|].
      split; [cbn; by rewrite <- Hins|]. split; [exact Hposts|].
      intros d' m' [Heq|Hin]%elem_of_cons; [discriminate|].
      apply elem_of_cons in Hin as [?|Hin]; [discriminate|].
      do 2 (apply elem_of_cons; right). by apply (Hlogged d').
Qed.

Context (w : World) (event : Target.t) (RPC_URL strategy : string)
  (latestBlock : number).

Ltac enter_body Hrun :=
  revert Hrun;
  unfold skipped, fromBlockIn, processNetworkLogs_body, mbind, M_bind,
    get_lastProcessedBlock;
  intros ->.

Lemma body_skipped :
  skipped w event strategy latestBlock = true →
  processNetworkLogs_body env event RPC_URL latestBlock strategy w = (Ok tt, w).
Proof. intros Hrun. by enter_body Hrun. Qed.

Lemma body_unknown_event (e : Exn) :
  skipped w event strategy latestBlock = false →
  getEventTopic (Target.event event) = Throw e →
  processNetworkLogs_body env event RPC_URL latestBlock strategy w
    = (Throw e,
       with_trace
         (trace w
          ++ [Logged (processingMessage event strategy
                        (fromBlockIn w event strategy latestBlock) latestBlock)])
         w).
Proof.
  intros Hrun Htopic. enter_body Hrun.
  unfold log, emit, lift. by rewrite Htopic.
Qed.

Context (eventTopic : string).
Hypothesis Hrun : skipped w event strategy latestBlock = false.
Hypothesis Htopic : getEventTopic (Target.event event) = Ok eventTopic.

Ltac reach_answer Hans :=
  enter_body Hrun;
  unfold log, emit, lift; rewrite Htopic;
  unfold getLogs, mbind, M_bind, next_requestId, axios_post;
  cbn [trace requestId with_trace with_requestId];
  unfold getLogsAnswer, getLogsRequest, fromBlockIn in Hans;
  rewrite Hans;
  unfold requested, getLogsRequest, fromBlockIn.

Lemma body_rejected (m : string) :
  getLogsAnswer env w event RPC_URL strategy latestBlock eventTopic
    = Rejected m →
  processNetworkLogs_body env event RPC_URL latestBlock strategy w
    = (Throw (AxiosError m),
       requested w event RPC_URL strategy latestBlock eventTopic).
Proof. intros Hans. reach_answer Hans. by rewrite <- app_assoc. Qed.

Lemma body_no_result :
  getLogsAnswer env w event RPC_URL strategy latestBlock eventTopic
    = Resolved None →
  processNetworkLogs_body env event RPC_URL latestBlock strategy w
    = (Throw (TypeError "Cannot read properties of undefined (reading 'length')"),
       requested w event RPC_URL strategy latestBlock eventTopic).
Proof. intros Hans. reach_answer Hans. by rewrite <- app_assoc. Qed.

Lemma body_fetched (logs : list RawLogEntry.t) :
  getLogsAnswer env w event RPC_URL strategy latestBlock eventTopic
    = Resolved (Some logs) →
  ∃ delta,
    processNetworkLogs_body env event RPC_URL latestBlock strategy w
      = (Ok tt,
         with_lastProcessedBlocks
           (<[cursorKey event strategy := latestBlock]> (lastProcessedBlocks w))
           (with_fetched
              (fetched w
               ++ [mkRange (cursorKey event strategy)
                     (fromBlockIn w event strategy latestBlock) latestBlock])
              (with_trace
                 (trace (requested w event RPC_URL strategy latestBlock
                           eventTopic) ++ delta)
                 (requested w event RPC_URL strategy latestBlock eventTopic))))
    ∧ (inserts delta).*1 = map (λ e, normalize e event strategy) logs
    ∧ posts delta = []
    ∧ (∀ d m, Insert d (Some m) ∈ delta →
         Logged ("Error inserting data into Supabase: " +:+ m) ∈ delta).
Proof.
  intros Hans. reach_answer Hans.
  unfold record_fetched, set_lastProcessedBlock. cbv beta iota zeta.
  destruct logs as [|logEntry rest].
  - exists []. split; [|repeat split; try done; by intros ? ? ?%elem_of_nil].
    unfold mret, M_ret. world_simpl. by rewrite <- !app_assoc, app_nil_r.
  - unfold log, emit.
    match goal with
    | |- context [insertLogs env ?l event strategy ?w'] =>
        destruct (insertLogs_spec event strategy l w')
          as (delta & -> & Hins & Hposts & Hlogged)
    end.
    exists (Logged (foundMessage (logEntry :: rest) event strategy) :: delta).
    split; [|repeat split; try done].
    + world_simpl. by rewrite <- !app_assoc.
    + intros d m [?|Hin]%elem_of_cons; [discriminate|].
      apply elem_of_cons. right. by apply (Hlogged d).
Qed.
End Steps.

(** ** The cursor *)

Lemma fromBlock_bounded (w : World) (event : Target.t) (strategy : string) (L : Z) :
  skipped w event strategy (Int L) = false →
  ∃ f : Z, fromBlockIn w event strategy (Int L) = Int f ∧ f ≤ L.
Proof.
  unfold skipped, fromBlockIn, fromBlockOf.
  destruct (lastProcessedBlocks w !! cursorKey event strategy) as [[|c]|];
    cbn [truthy]; try (intros _; exists L; split; [reflexivity|lia]).
  destruct (c =? 0); cbn [negb succ gt].
  - intros _; exists L; split; [reflexivity|lia].
  - intros H. exists (c + 1). split; [reflexivity|lia].
Qed.

Lemma getEventTopic_cases (eventName : string) :
  (∃ topic, getEventTopic eventName = Ok topic)
  ∨ getEventTopic eventName = Throw (UnknownEventError eventName).
Proof.
  unfold getEventTopic.
  destruct (String.eqb eventName "PairCreated"); [left; eauto|].
  destruct (String.eqb eventName "PoolCreated"); [left; eauto|by right].
Qed.

(** Whatever happens in a turn, the history only grows, and every request
    of the turn asks for an ordered range that ends at the latest block. *)
Lemma body_requests_ordered (env : Env) (w : World) (event : Target.t)
    (RPC_URL strategy : string) (L : Z) :
  ∃ delta,
    trace (snd (processNetworkLogs_body env event RPC_URL (Int L) strategy w))
      = trace w ++ delta
    ∧ Forall (λ p, ordered_upto L p.2) (posts delta).
Proof.
  destruct (skipped w event strategy (Int L)) eqn:Hrun.
  { exists []. rewrite body_skipped by done. by rewrite app_nil_r. }
  destruct (getEventTopic_cases (Target.event event)) as [[topic Htopic]|Htopic].
  2:{ eexists. rewrite (body_unknown_event _ _ _ _ _ _ _ Hrun Htopic).
      split; [reflexivity|]. by constructor. }
  destruct (fromBlock_bounded _ _ _ _ Hrun) as (f & Hf & Hle).
  assert (Forall (λ p : string * Request, ordered_upto L p.2)
            [(RPC_URL, getLogsRequest w event strategy (Int L) topic)]) as Hreq.
  { constructor; [|constructor]. unfold getLogsRequest. rewrite Hf.
    exists f. by eauto 10. }
  destruct (getLogsAnswer env w event RPC_URL strategy (Int L) topic)
    as [m|[logs|]] eqn:Hans.
  - eexists. rewrite (body_rejected _ _ _ _ _ _ _ Hrun Htopic _ Hans).
    split; [reflexivity|]. exact Hreq.
  - destruct (body_fetched _ _ _ _ _ _ _ Hrun Htopic _ Hans)
      as (delta & -> & _ & Hposts & _).
    eexists. split; [unfold requested; world_simpl; by rewrite <- app_assoc|].
    rewrite posts_app, Hposts, app_nil_r. exact Hreq.
  - eexists. rewrite (body_no_result _ _ _ _ _ _ _ Hrun Htopic Hans).
    split; [reflexivity|]. exact Hreq.
Qed.

Lemma processNetworkLogs_requests_ordered (env : Env)
    (networkEvents : list Target.t) (RPC_URL strategy : string) (L : Z) :
  ∀ w, ∃ delta,
    trace (snd (processNetworkLogs env networkEvents RPC_URL (Int L) strategy w))
      = trace w ++ delta
    ∧ Forall (λ p, ordered_upto L p.2) (posts delta).
Proof.
  induction networkEvents as [|event rest IH]; intros w.
  - exists []. cbn. by rewrite app_nil_r.
  - cbn [processNetworkLogs]. unfold mbind, M_bind.
    destruct (body_requests_ordered env w event RPC_URL strategy L)
      as (d1 & Hd1 & Hp1).
    destruct (processNetworkLogs_body env event RPC_URL (Int L) strategy w)
      as [[[]|e] w1]; cbn [snd] in Hd1.
    + destruct (IH w1) as (d2 & Hd2 & Hp2).
      exists (d1 ++ d2). rewrite Hd2, Hd1, app_assoc. split; [done|].
      rewrite posts_app. by apply Forall_app.
    + exists d1. by split.
Qed.

(** C1, as amended.  After a turn that is not skipped and whose
    [eth_getLogs] request comes back with a list of logs, empty or not, the
    turn returns normally and the cursor of the key is the latest block of
    that turn. *)
Theorem cursor_advances_when_fetch_returns (env : Env) (w : World)
    (event : Target.t) (RPC_URL strategy : string) (latestBlock : number)
    (eventTopic : string) (logs : list RawLogEntry.t) :
  skipped w event strategy latestBlock = false →
  getEventTopic (Target.event event) = Ok eventTopic →
  getLogsAnswer env w event RPC_URL strategy latestBlock eventTopic
    = Resolved (Some logs) →
  fst (processNetworkLogs_body env event RPC_URL latestBlock strategy w) = Ok tt
  ∧ lastProcessedBlocks
      (snd (processNetworkLogs_body env event RPC_URL latestBlock strategy w))
    !! cursorKey event strategy = Some latestBlock.
Proof.
  intros Hrun Htopic Hans.
  destruct (body_fetched _ _ _ _ _ _ _ Hrun Htopic _ Hans) as (delta & -> & _).
  split; [reflexivity|]. world_simpl. cbn [snd]. world_simpl.
  apply lookup_insert_eq.
Qed.

Lemma cursor_advances_when_fetch_returns_witness :
  skipped (initial [uniswap]) uniswap "eth_blockNumber" (Int 100) = false
  ∧ fst (processNetworkLogs_body quiet uniswap "URL" (Int 100) "eth_blockNumber"
           (initial [uniswap])) = Ok tt
  ∧ lastProcessedBlocks
      (snd (processNetworkLogs_body quiet uniswap "URL" (Int 100)
              "eth_blockNumber" (initial [uniswap])))
    !! cursorKey uniswap "eth_blockNumber" = Some (Int 100).
Proof.
  split; [reflexivity|].
  apply (cursor_advances_when_fetch_returns quiet (initial [uniswap]) uniswap
           "URL" "eth_blockNumber" (Int 100)
           "0x0d3648bd0f6ba80134a33ba9275ac585d9d315f0ad8355cddefde31afa28d0e9"
           []);
    reflexivity.
Defined.

(** C1, as stated, fails when the fetch itself fails.  The key was synced
    to block 100; on the next turn the latest block is 105, the turn is not
    skipped, the request for 101..105 goes out and is rejected: the turn
    throws and the cursor still reads 100, not 105. *)
Lemma cursor_kept_when_fetch_fails :
  let w := snd (processNetworkLogs_body flaky uniswap "URL" (Int 100)
                  "eth_blockNumber" (initial [uniswap])) in
  let r := processNetworkLogs_body flaky uniswap "URL" (Int 105)
             "eth_blockNumber" w in
  skipped w uniswap "eth_blockNumber" (Int 105) = false
  ∧ last (posts (trace (snd r)))
    = Some ("URL",
            eth_getLogs "0x65" "0x69" "0xABC"
              "0x0d3648bd0f6ba80134a33ba9275ac585d9d315f0ad8355cddefde31afa28d0e9"
              2)
  ∧ fst r = Throw (TransportError "Network Error")
  ∧ lastProcessedBlocks (snd r) !! cursorKey uniswap "eth_blockNumber"
    = Some (Int 100)
  ∧ lastProcessedBlocks (snd r) !! cursorKey uniswap "eth_blockNumber"
    ≠ Some (Int 105).
Proof. vm_compute. repeat split; congruence. Qed.

(** ** The start of the range *)

Lemma fromBlockOf_unset (latestBlock : number) :
  fromBlockOf None latestBlock = latestBlock.
Proof. reflexivity. Qed.

Lemma fromBlockOf_set (c : Z) (latestBlock : number) :
  c ≠ 0 → fromBlockOf (Some (Int c)) latestBlock = Int (c + 1).
Proof.
  intros Hc. unfold fromBlockOf, truthy.
  by destruct (Z.eqb_spec c 0).
Qed.

(** The scenario of the specification: no cursor and latest block 100 give
    the range 100..100 and the cursor 100; latest block 105 on the next turn
    gives 101..105. *)
Example first_and_second_poll :
  let w1 := snd (processNetworkLogs quiet [uniswap] "URL" (Int 100)
                   "eth_blockNumber" (initial [uniswap])) in
  let w2 := snd (processNetworkLogs quiet [uniswap] "URL" (Int 105)
                   "eth_blockNumber" w1) in
  rangesOf uniswap_key (fetched w1) = [(Int 100, Int 100)]
  ∧ lastProcessedBlocks w1 !! uniswap_key = Some (Int 100)
  ∧ rangesOf uniswap_key (fetched w2) = [(Int 100, Int 100); (Int 101, Int 105)]
  ∧ (posts (trace w2)).*2
    = [eth_getLogs "0x64" "0x64" "0xABC"
         "0x0d3648bd0f6ba80134a33ba9275ac585d9d315f0ad8355cddefde31afa28d0e9" 1;
       eth_getLogs "0x65" "0x69" "0xABC"
         "0x0d3648bd0f6ba80134a33ba9275ac585d9d315f0ad8355cddefde31afa28d0e9" 2].
Proof. vm_compute. repeat split. Qed.

(** C3 at the input on which the code departs from it.  The first turn
    sees the latest block 0 and sets the cursor to 0.  The cursor is set,
    so the next turn, with latest block 5, should fetch 1..5; the code tests
    the stored 0 for truthiness, takes the cursor for unset and fetches
    5..5. *)
Theorem zero_cursor_restarts_at_latest :
  let w0 := snd (processNetworkLogs quiet [uniswap] "URL" (Int 0)
                   "eth_blockNumber" (initial [uniswap])) in
  let w1 := snd (processNetworkLogs quiet [uniswap] "URL" (Int 5)
                   "eth_blockNumber" w0) in
  lastProcessedBlocks w0 !! uniswap_key = Some (Int 0)
  ∧ fromBlockIn w0 uniswap "eth_blockNumber" (Int 5) = Int 5
  ∧ rangesOf uniswap_key (fetched w1) = [(Int 0, Int 0); (Int 5, Int 5)]
  ∧ last (posts (trace w1))
    = Some ("URL",
            eth_getLogs "0x5" "0x5" "0xABC"
              "0x0d3648bd0f6ba80134a33ba9275ac585d9d315f0ad8355cddefde31afa28d0e9"
              2).
Proof. vm_compute. repeat split. Qed.

(** C4 at the input on which the code departs from it.  Two turns in a row
    see the latest block 0: the cursor 0 left by the first one reads as
    unset, so the second one fetches the range 0..0 again. *)
Theorem zero_cursor_refetches_range :
  let w0 := snd (processNetworkLogs quiet [uniswap] "URL" (Int 0)
                   "eth_blockNumber" (initial [uniswap])) in
  let w1 := snd (processNetworkLogs quiet [uniswap] "URL" (Int 0)
                   "eth_blockNumber" w0) in
  lastProcessedBlocks w0 !! uniswap_key = Some (Int 0)
  ∧ rangesOf uniswap_key (fetched w1) = [(Int 0, Int 0); (Int 0, Int 0)]
  ∧ ascending (rangesOf uniswap_key (fetched w1)) = false.
Proof. vm_compute. repeat split. Qed.

(** C10.  A stored cursor of 0 is falsy: the turn computes [fromBlock] as
    the latest block, not as [0 + 1], it is never skipped, and for a known
    event the request that goes out asks for the latest block alone. *)
Theorem zero_cursor_reads_as_unset (env : Env) (w : World) (event : Target.t)
    (RPC_URL strategy : string) (latestBlock : number) :
  lastProcessedBlocks w !! cursorKey event strategy = Some (Int 0) →
  fromBlockIn w event strategy latestBlock = latestBlock
  ∧ (latestBlock ≠ Int 1 → fromBlockIn w event strategy latestBlock ≠ succ (Int 0))
  ∧ skipped w event strategy latestBlock = false
  ∧ ∀ eventTopic,
      getEventTopic (Target.event event) = Ok eventTopic →
      Post RPC_URL
        (eth_getLogs ("0x" +:+ toString16 latestBlock)
           ("0x" +:+ toString16 latestBlock) (Target.factory_address event)
           eventTopic (requestId w))
      ∈ trace (snd (processNetworkLogs_body env event RPC_URL latestBlock
                      strategy w)).
Proof.
  intros Hcursor.
  assert (fromBlockIn w event strategy latestBlock = latestBlock) as Hfrom.
  { unfold fromBlockIn. by rewrite Hcursor. }
  assert (skipped w event strategy latestBlock = false) as Hrun.
  { unfold skipped. rewrite Hfrom. destruct latestBlock; [done|].
    cbn. apply Z.ltb_irrefl. }
  repeat split; try done.
  { rewrite Hfrom. by intros H. }
  intros eventTopic Htopic.
  assert (Post RPC_URL
            (eth_getLogs ("0x" +:+ toString16 latestBlock)
               ("0x" +:+ toString16 latestBlock) (Target.factory_address event)
               eventTopic (requestId w))
          ∈ trace (requested w event RPC_URL strategy latestBlock eventTopic))
    as Hposted.
  { unfold requested, getLogsRequest. rewrite Hfrom. world_simpl.
    rewrite !elem_of_app, !elem_of_cons. right. right. by left. }
  destruct (getLogsAnswer env w event RPC_URL strategy latestBlock eventTopic)
    as [m|[logs|]] eqn:Hans.
  - by rewrite (body_rejected _ _ _ _ _ _ _ Hrun Htopic _ Hans).
  - destruct (body_fetched _ _ _ _ _ _ _ Hrun Htopic _ Hans) as (delta & -> & _).
    cbn [snd]. world_simpl. apply elem_of_app. by left.
  - by rewrite (body_no_result _ _ _ _ _ _ _ Hrun Htopic Hans).
Qed.

Lemma zero_cursor_reads_as_unset_witness :
  lastProcessedBlocks (synced (Int 0)) !! cursorKey uniswap "eth_blockNumber"
    = Some (Int 0)
  ∧ fromBlockIn (synced (Int 0)) uniswap "eth_blockNumber" (Int 5) = Int 5.
Proof.
  split; [reflexivity|].
  apply (zero_cursor_reads_as_unset quiet (synced (Int 0)) uniswap "URL"
           "eth_blockNumber" (Int 5)).
  reflexivity.
Defined.

(** ** Normalisation *)





(** The record of the scenario: a raw block number ["0x64"] is stored as
    100. *)
Example normalize_block_0x64 :
  LogData.block_number (normalize (rawLog "0x0" "0x64") uniswap "eth_blockNumber")
  = Int 100.
Proof. reflexivity. Qed.

(** ** Failures of the sink *)

(** C6.  When the fetch of a turn returns any list of logs, the turn
    returns normally whatever Supabase answers: every entry of the list is
    normalised and handed to Supabase, in order; every refusal is logged with
    its message; and the cursor of the key is the latest block. *)
Theorem sink_failure_stops_nothing (env : Env) (w : World) (event : Target.t)
    (RPC_URL strategy : string) (latestBlock : number) (eventTopic : string)
    (logs : list RawLogEntry.t) :
  skipped w event strategy latestBlock = false →
  getEventTopic (Target.event event) = Ok eventTopic →
  getLogsAnswer env w event RPC_URL strategy latestBlock eventTopic
    = Resolved (Some logs) →
  ∃ delta,
    fst (processNetworkLogs_body env event RPC_URL latestBlock strategy w)
      = Ok tt
    ∧ trace (snd (processNetworkLogs_body env event RPC_URL latestBlock
                    strategy w))
      = trace (requested w event RPC_URL strategy latestBlock eventTopic)
        ++ delta
    ∧ (inserts delta).*1 = map (λ e, normalize e event strategy) logs
    ∧ (∀ d m, Insert d (Some m) ∈ delta →
         Logged ("Error inserting data into Supabase: " +:+ m) ∈ delta)
    ∧ lastProcessedBlocks
        (snd (processNetworkLogs_body env event RPC_URL latestBlock strategy w))
      !! cursorKey event strategy = Some latestBlock.
Proof.
  intros Hrun Htopic Hans.
  destruct (body_fetched _ _ _ _ _ _ _ Hrun Htopic _ Hans)
    as (delta & -> & Hins & _ & Hlogged).
  exists delta. cbn [snd]. world_simpl.
  repeat split; try done. apply lookup_insert_eq.
Qed.

Lemma sink_failure_stops_nothing_witness :
  skipped (initial [uniswap]) uniswap "eth_blockNumber" (Int 100) = false
  ∧ ∃ delta,
      fst (processNetworkLogs_body sink_refuses_second uniswap "URL" (Int 100)
             "eth_blockNumber" (initial [uniswap]))
        = Ok tt
      ∧ trace (snd (processNetworkLogs_body sink_refuses_second uniswap "URL"
                      (Int 100) "eth_blockNumber" (initial [uniswap])))
        = trace (requested (initial [uniswap]) uniswap "URL" "eth_blockNumber"
                   (Int 100)
                   "0x0d3648bd0f6ba80134a33ba9275ac585d9d315f0ad8355cddefde31afa28d0e9")
          ++ delta
      ∧ (inserts delta).*1
        = map (λ e, normalize e uniswap "eth_blockNumber")
            [rawLog "0x0" "0x64"; rawLog "0x1" "0x64"; rawLog "0x2" "0x64"]
      ∧ (∀ d m, Insert d (Some m) ∈ delta →
           Logged ("Error inserting data into Supabase: " +:+ m) ∈ delta)
      ∧ lastProcessedBlocks
          (snd (processNetworkLogs_body sink_refuses_second uniswap "URL"
                  (Int 100) "eth_blockNumber" (initial [uniswap])))
        !! cursorKey uniswap "eth_blockNumber" = Some (Int 100).
Proof.
  split; [reflexivity|].
  apply (sink_failure_stops_nothing sink_refuses_second (initial [uniswap])
           uniswap "URL" "eth_blockNumber" (Int 100)
           "0x0d3648bd0f6ba80134a33ba9275ac585d9d315f0ad8355cddefde31afa28d0e9"
           [rawLog "0x0" "0x64"; rawLog "0x1" "0x64"; rawLog "0x2" "0x64"]);
    reflexivity.
Defined.

(** The scenario of the specification: of three records the second is
    refused; all three are handed over, the refusal is logged and the cursor
    is 100. *)
Example one_of_three_refused :
  let w := snd (processNetworkLogs_body sink_refuses_second uniswap "URL"
                  (Int 100) "eth_blockNumber" (initial [uniswap])) in
  (inserts (trace w)).*2 = [None; Some "duplicate key"; None]
  ∧ (inserts (trace w)).*1
    = map (λ e, normalize e uniswap "eth_blockNumber")
        [rawLog "0x0" "0x64"; rawLog "0x1" "0x64"; rawLog "0x2" "0x64"]
  ∧ Logged "Error inserting data into Supabase: duplicate key" ∈ trace w
  ∧ lastProcessedBlocks w !! uniswap_key = Some (Int 100).
Proof.
  repeat split; try reflexivity.
  apply list_elem_of_lookup. exists 6%nat. reflexivity.
Qed.

(** ** Lifting a relation through the monad *)

Section Lifting.
Context (R : relation World) `{!PreOrder R}.

Lemma preserves_ret {A} (a : A) : preserves R (mret a).
Proof. intros w. reflexivity. Qed.

Lemma preserves_throw {A} (e : Exn) : preserves R (@throw A e).
Proof. intros w. reflexivity. Qed.

Lemma preserves_lift {A} (r : Res A) : preserves R (lift r).
Proof. intros w. reflexivity. Qed.

Lemma preserves_get_events : preserves R get_events.
Proof. intros w. reflexivity. Qed.

Lemma preserves_get_lastProcessedBlock (key : string) :
  preserves R (get_lastProcessedBlock key).
Proof. intros w. reflexivity. Qed.

Lemma preserves_bind_ok {A B} (m : M A) (f : A → M B) :
  preserves R m →
  (∀ w a, fst (m w) = Ok a → R (snd (m w)) (snd (f a (snd (m w))))) →
  preserves R (m ≫= f).
Proof.
  intros Hm Hf w. unfold mbind, M_bind. specialize (Hm w). specialize (Hf w).
  destruct (m w) as [[a|e] w1]; cbn [fst snd] in *; [|done].
  etrans; [exact Hm|]. by apply Hf.
Qed.

Lemma preserves_bind {A B} (m : M A) (f : A → M B) :
  preserves R m → (∀ a, preserves R (f a)) → preserves R (m ≫= f).
Proof. intros Hm Hf. apply preserves_bind_ok; [done|]. intros w a _. apply Hf. Qed.

Lemma preserves_try_catch {A} (m : M A) (h : Exn → M A) :
  preserves R m → (∀ e, preserves R (h e)) → preserves R (try_catch m h).
Proof.
  intros Hm Hh w. unfold try_catch. specialize (Hm w).
  destruct (m w) as [[a|e] w1]; cbn [fst snd] in *; [done|].
  etrans; [exact Hm|]. apply Hh.
Qed.
End Lifting.

Ltac preserve_step :=
  first
    [ match goal with |- PreOrder _ => apply _ end
    | apply preserves_ret | apply preserves_throw | apply preserves_lift
    | apply preserves_get_events | apply preserves_get_lastProcessedBlock
    | apply preserves_try_catch | apply preserves_bind
    | match goal with
      | |- preserves _ (if ?b then _ else _) => destruct b
      | |- preserves _ (match ?x with _ => _ end) => destruct x
      | |- ∀ _, _ => intros ?
      end ].

(** ** Where the requests go *)

Global Instance grows_preorder (P : string * Request → Prop) : PreOrder (grows P).
Proof.
  split.
  - intros w. exists []. by rewrite app_nil_r.
  - intros w1 w2 w3 (d1 & H1 & P1) (d2 & H2 & P2). exists (d1 ++ d2).
    rewrite H2, H1, app_assoc, posts_app. split; [done|by apply Forall_app].
Qed.

Section Requests.
Context (env : Env) (P : string * Request → Prop).

Lemma grows_same_trace (w w' : World) : trace w' = trace w → grows P w w'.
Proof. intros Heq. exists []. by rewrite app_nil_r. Qed.

Lemma grows_emit (e : IO) : posts [e] = [] → preserves (grows P) (emit e).
Proof. intros He w. exists [e]. rewrite He. by split. Qed.

Lemma grows_log (m : string) : preserves (grows P) (log m).
Proof. by apply grows_emit. Qed.

Lemma grows_console_error (label detail : string) :
  preserves (grows P) (console_error label detail).
Proof. by apply grows_emit. Qed.

Lemma grows_next_requestId : preserves (grows P) next_requestId.
Proof. intros w. by apply grows_same_trace. Qed.

Lemma grows_record_fetched (r : Range) : preserves (grows P) (record_fetched r).
Proof. intros w. by apply grows_same_trace. Qed.

Lemma grows_set_lastProcessedBlock (key : string) (n : number) :
  preserves (grows P) (set_lastProcessedBlock key n).
Proof. intros w. by apply grows_same_trace. Qed.

Lemma grows_supabase_insert (d : LogData.t) :
  preserves (grows P) (supabase_insert env d).
Proof. intros w. eexists. split; [reflexivity|]. constructor. Qed.

Lemma grows_axios_post {A} (answer : list IO → string → Request → Axios A)
    (url : string) (body : Request) :
  P (url, body) → preserves (grows P) (axios_post answer url body).
Proof.
  intros HP w. exists [Post url body]. unfold axios_post.
  split; [by destruct (answer (trace w) url body)|].
  by repeat constructor.
Qed.

Ltac grow :=
  repeat first
    [ apply grows_log | apply grows_console_error | apply grows_next_requestId
    | apply grows_record_fetched | apply grows_set_lastProcessedBlock
    | apply grows_supabase_insert | apply grows_axios_post
    | by apply grows_emit | done | preserve_step ].

Lemma grows_insertLogs (logs : list RawLogEntry.t) (event : Target.t)
    (strategy : string) :
  preserves (grows P) (insertLogs env logs event strategy).
Proof. induction logs as [|logEntry rest IH]; cbn [insertLogs]; grow. Qed.

Context (RPC_URL : string).

Lemma grows_getLatestBlockNumber_heights (strategy : string) :
  (∀ id, P (RPC_URL, eth_blockNumber id)) →
  (∀ id, P (RPC_URL, eth_getBlockByNumber id)) →
  preserves (grows P) (getLatestBlockNumber env RPC_URL strategy).
Proof. intros Hnumber Hfinalized. unfold getLatestBlockNumber. grow. Qed.

Hypothesis P_endpoint : ∀ body, P (RPC_URL, body).



End Requests.

(** ** Configuration faults *)

Lemma getEventTopic_known (eventName : string) :
  eventName ∈ known_events → ∃ topic, getEventTopic eventName = Ok topic.
Proof.
  unfold known_events. rewrite !elem_of_cons, elem_of_nil.
  intros [->|[->|[]]]; eexists; reflexivity.
Qed.

Lemma getEventTopic_unknown (eventName : string) :
  eventName ∉ known_events →
  getEventTopic eventName = Throw (UnknownEventError eventName).
Proof.
  unfold known_events, getEventTopic. rewrite !elem_of_cons, elem_of_nil.
  intros Hnot.
  repeat (match goal with
          | |- context [String.eqb eventName ?s] =>
              destruct (String.eqb_spec eventName s) as [->|_]; [tauto|]
          end).
  reflexivity.
Qed.

Lemma getRpcUrl_supported (env : Env) (chain : string) :
  chain ∈ supported_chains → ∃ url, getRpcUrl env chain = Ok url.
Proof.
  unfold supported_chains. rewrite !elem_of_cons, elem_of_nil.
  intros [->|[->|[->|[->|[->|[->|[]]]]]]]; eexists; reflexivity.
Qed.

Lemma getRpcUrl_unsupported (env : Env) (chain : string) :
  chain ∉ supported_chains →
  getRpcUrl env chain = Throw (UnsupportedNetworkError chain).
Proof.
  unfold supported_chains, getRpcUrl. rewrite !elem_of_cons, elem_of_nil.
  intros Hnot.
  repeat (match goal with
          | |- context [String.eqb chain ?s] =>
              destruct (String.eqb_spec chain s) as [->|_]; [tauto|]
          end).
  reflexivity.
Qed.

(** ** The loop never ends *)

Lemma processLogs_caught (env : Env) (w w' : World) (e : Exn) :
  processLogs_try env w = (Throw e, w') →
  processLogs env w
  = (Ok tt,
     with_trace
       (trace w'
        ++ [ConsoleError "Error processing logs:" (message e);
            Logged ("Error processing logs: " +:+ message e)])
       w').
Proof.
  intros Htry. unfold processLogs, try_catch. rewrite Htry.
  unfold console_error, log, emit, mbind, M_bind. world_simpl.
  by rewrite <- app_assoc.
Qed.

Lemma processLogs_returns (env : Env) (w : World) :
  fst (processLogs env w) = Ok tt.
Proof.
  destruct (processLogs_try env w) as [[[]|e] w'] eqn:Htry.
  - unfold processLogs, try_catch. by rewrite Htry.
  - by rewrite (processLogs_caught _ _ _ _ Htry).
Qed.

Lemma runContinuously_next (env : Env) (n : nat) (w : World) :
  runContinuously env (S n) w = runContinuously env n (snd (processLogs env w)).
Proof.
  cbn [runContinuously]. unfold mbind, M_bind, try_catch.
  pose proof (processLogs_returns env w) as Hok.
  destruct (processLogs env w) as [[[]|e] w']; [reflexivity|discriminate].
Qed.

Lemma runContinuously_goes_on (env : Env) (n : nat) :
  ∀ w, fst (runContinuously env n w) = Ok tt.
Proof.
  induction n as [|n IH]; intros w; [reflexivity|].
  rewrite runContinuously_next. apply IH.
Qed.

(** C7.  For a target whose event name is not one of the two known names,
    [getEventTopic] throws the unknown-event error, and the turn of that
    target sends no request: either it is skipped, or it throws that error
    right after its progress message; the requests of the history and
    [requestId] are as before. *)
Theorem unknown_event_sends_no_request (env : Env) (w : World)
    (event : Target.t) (RPC_URL strategy : string) (latestBlock : number) :
  Target.event event ∉ known_events →
  getEventTopic (Target.event event)
    = Throw (UnknownEventError (Target.event event))
  ∧ fst (processNetworkLogs_body env event RPC_URL latestBlock strategy w)
    = (if skipped w event strategy latestBlock then Ok tt
       else Throw (UnknownEventError (Target.event event)))
  ∧ posts (trace (snd (processNetworkLogs_body env event RPC_URL latestBlock
                         strategy w)))
    = posts (trace w)
  ∧ requestId (snd (processNetworkLogs_body env event RPC_URL latestBlock
                      strategy w))
    = requestId w.
Proof.
  intros Hunknown. pose proof (getEventTopic_unknown _ Hunknown) as Htopic.
  split; [exact Htopic|].
  destruct (skipped w event strategy latestBlock) eqn:Hrun.
  - by rewrite body_skipped.
  - rewrite (body_unknown_event _ _ _ _ _ _ _ Hrun Htopic). cbn [fst snd].
    world_simpl. rewrite posts_app. cbn. by rewrite app_nil_r.
Qed.

Lemma unknown_event_sends_no_request_witness :
(Target.event (Target.mk "ethereum" "0xABC" "uniswap" "Swap") ∉ known_events)
  ∧ fst (processNetworkLogs_body quiet
           (Target.mk "ethereum" "0xABC" "uniswap" "Swap") "URL" (Int 100)
           "eth_blockNumber" (initial []))
    = Throw (UnknownEventError "Swap").
Proof.
  assert (Target.event (Target.mk "ethereum" "0xABC" "uniswap" "Swap")
          ∉ known_events) as Hunknown.
  { unfold known_events. cbn. rewrite !elem_of_cons, elem_of_nil.
    intros [?|[?|[]]]; discriminate. }
  split; [exact Hunknown|].
  apply (unknown_event_sends_no_request quiet (initial [])
           (Target.mk "ethereum" "0xABC" "uniswap" "Swap") "URL"
           "eth_blockNumber" (Int 100) Hunknown).
Defined.

Lemma getRpcUrl_ok_supported (env : Env) (chain url : string) :
  getRpcUrl env chain = Ok url → chain ∈ supported_chains.
Proof.
  intros Hurl. destruct (decide (chain ∈ supported_chains)) as [|Hnot]; [done|].
  by rewrite (getRpcUrl_unsupported env _ Hnot) in Hurl.
Qed.











(** C9.  Whatever error the [try] block of an iteration throws, [processLogs]
    catches it, reports its message and returns normally, and the loop starts
    its next iteration from the state the failed one left; no number of
    iterations is ever cut short by an exception. *)
Theorem errors_never_leave_the_loop (env : Env) (w w' : World) (e : Exn) :
  processLogs_try env w = (Throw e, w') →
  processLogs env w
  = (Ok tt,
     with_trace
       (trace w'
        ++ [ConsoleError "Error processing logs:" (message e);
            Logged ("Error processing logs: " +:+ message e)])
       w')
  ∧ (∀ n, runContinuously env (S n) w
          = runContinuously env n (snd (processLogs env w)))
  ∧ (∀ n w0, fst (runContinuously env n w0) = Ok tt).
Proof.
  intros Htry. split; [by apply processLogs_caught|]. split.
  - intros n. apply runContinuously_next.
  - intros n w0. apply runContinuously_goes_on.
Qed.

Lemma errors_never_leave_the_loop_witness :
  processLogs_try quiet (initial [on_solana])
    = (Throw (UnsupportedNetworkError "solana"), initial [on_solana])
  ∧ processLogs quiet (initial [on_solana])
    = (Ok tt,
       with_trace
         [ConsoleError "Error processing logs:" "Unsupported chain: solana";
          Logged "Error processing logs: Unsupported chain: solana"]
         (initial [on_solana])).
Proof.
  split; [reflexivity|].
  apply (errors_never_leave_the_loop quiet (initial [on_solana])
           (initial [on_solana]) (UnsupportedNetworkError "solana")).
  reflexivity.
Defined.

(** Each kind of error of the specification does arise inside an iteration
    and ends in the [catch] of [processLogs]. *)
Example transport_error_is_caught :
  fst (processLogs_try offline (initial [uniswap]))
    = Throw (TransportError "Network Error")
  ∧ fst (processLogs offline (initial [uniswap])) = Ok tt
  ∧ last (trace (snd (processLogs offline (initial [uniswap]))))
    = Some (Logged "Error processing logs: Network Error").
Proof. repeat split. Qed.

Example protocol_error_is_caught :
  fst (processLogs_try malformed (initial [uniswap])) = Throw ProtocolError
  ∧ fst (processLogs malformed (initial [uniswap])) = Ok tt
  ∧ last (trace (snd (processLogs malformed (initial [uniswap]))))
    = Some (Logged
              "Error processing logs: Invalid response structure for eth_getBlockByNumber").
Proof. repeat split. Qed.

Example unknown_event_is_caught :
  fst (processLogs_try quiet (initial [swaps])) = Throw (UnknownEventError "Swap")
  ∧ fst (processLogs quiet (initial [swaps])) = Ok tt
  ∧ (posts (trace (snd (processLogs quiet (initial [swaps]))))).*2
    = [eth_blockNumber 1; eth_getBlockByNumber 2]
  ∧ last (trace (snd (processLogs quiet (initial [swaps]))))
    = Some (Logged "Error processing logs: Unsupported event: Swap").
Proof. repeat split. Qed.

Example sink_error_is_logged :
  fst (processLogs_try sink_refuses_second (initial [uniswap])) = Ok tt
  ∧ Logged "Error inserting data into Supabase: duplicate key"
    ∈ trace (snd (processLogs sink_refuses_second (initial [uniswap]))).
Proof.
  split; [reflexivity|].
  apply list_elem_of_lookup. exists 8%nat. reflexivity.
Qed.

(** ** The cursor along a run *)

Global Instance same_store_preorder : PreOrder same_store.
Proof.
  split.
  - by intros w.
  - intros w1 w2 w3 [H1 H1'] [H2 H2']. split; congruence.
Qed.

Global Instance advances_preorder (lo : Z) : PreOrder (advances lo).
Proof.
  split.
  - intros w Hw. split; [done|]. intros key c Hc. exists c. by split.
  - intros w1 w2 w3 H12 H23 Hw1.
    destruct (H12 Hw1) as [Hw2 Hle12]. destruct (H23 Hw2) as [Hw3 Hle23].
    split; [done|]. intros key c Hc.
    destruct (Hle12 _ _ Hc) as (c2 & Hc2 & ?).
    destruct (Hle23 _ _ Hc2) as (c3 & Hc3 & ?).
    exists c3. split; [done|lia].
Qed.

Lemma same_store_advances (lo : Z) (w w' : World) :
  same_store w w' → advances lo w w'.
Proof.
  intros [Hcursors Hfetched] (Hbound & Hlast & Hasc).
  unfold consistent, bounded_below, cursor_is_last_end, ranges_ascend,
    never_decreases.
  rewrite Hcursors, Hfetched. repeat split; try done.
  intros key c Hc. exists c. by split.
Qed.

Lemma preserves_same_store_advances (lo : Z) {A} (m : M A) :
  preserves same_store m → preserves (advances lo) m.
Proof. intros Hm w. apply same_store_advances, Hm. Qed.

Lemma same_store_getLatestBlockNumber (env : Env) (RPC_URL strategy : string) :
  preserves same_store (getLatestBlockNumber env RPC_URL strategy).
Proof.
  assert (∀ e, preserves same_store (emit e)) as Hemit by done.
  assert (preserves same_store next_requestId) as Hid by done.
  assert (∀ A (answer : list IO → string → Request → Axios A) url body,
            preserves same_store (axios_post answer url body)) as Hpost.
  { intros A answer url body w. unfold axios_post.
    by destruct (answer (trace w) url body). }
  unfold getLatestBlockNumber, console_error.
  repeat first [ apply Hemit | apply Hid | apply Hpost | preserve_step ].
Qed.

Lemma ascending_snoc (l : list (number * number)) (f t : number) :
  ascending (l ++ [(f, t)])
  = ascending l && match last l with
                   | Some (_, t0) => gt f t0
                   | None => true
                   end.
Proof.
  induction l as [|[f1 t1] l IH]; [reflexivity|].
  destruct l as [|[f2 t2] l].
  - cbn. by rewrite andb_true_r.
  - change (ascending (((f1, t1) :: (f2, t2) :: l) ++ [(f, t)]))
      with (gt f2 t1 && ascending (((f2, t2) :: l) ++ [(f, t)])).
    rewrite IH.
    change (ascending ((f1, t1) :: (f2, t2) :: l))
      with (gt f2 t1 && ascending ((f2, t2) :: l)).
    change (last ((f1, t1) :: (f2, t2) :: l)) with (last ((f2, t2) :: l)).
    by rewrite andb_assoc.
Qed.

Lemma rangesOf_snoc (key : string) (l : list Range) (r : Range) :
  rangesOf key (l ++ [r])
  = rangesOf key l
    ++ (if String.eqb (r_key r) key then [(r_from r, r_to r)] else []).
Proof.
  unfold rangesOf. rewrite omap_app. f_equal. cbn.
  by destruct (String.eqb (r_key r) key).
Qed.

Lemma advances_fetched (lo : Z) (w w' : World) (event : Target.t)
    (strategy : string) (L : Z) :
  0 ≤ lo → lo ≤ L →
  skipped w event strategy (Int L) = false →
  lastProcessedBlocks w'
    = <[cursorKey event strategy := Int L]> (lastProcessedBlocks w) →
  fetched w'
    = fetched w ++ [mkRange (cursorKey event strategy)
                      (fromBlockIn w event strategy (Int L)) (Int L)] →
  advances lo w w'.
Proof.
  intros Hlo HL Hrun Hcursors Hfetched (Hbound & Hlast & Hasc).
  set (k := cursorKey event strategy) in *.
  assert (∀ key, rangesOf key (fetched w')
                 = rangesOf key (fetched w)
                   ++ (if String.eqb k key
                       then [(fromBlockIn w event strategy (Int L), Int L)]
                       else [])) as Hranges.
  { intros key. by rewrite Hfetched, rangesOf_snoc. }
  split; [split; [|split]|].
  - intros key v. rewrite Hcursors.
    destruct (decide (k = key)) as [->|Hne].
    + rewrite lookup_insert_eq. intros [= <-]. by exists L.
    + rewrite lookup_insert_ne by done. apply Hbound.
  - intros key. rewrite Hranges, Hcursors.
    destruct (String.eqb_spec k key) as [->|Hne].
    + by rewrite lookup_insert_eq, last_snoc.
    + by rewrite lookup_insert_ne, app_nil_r.
  - intros Hpos key. rewrite Hranges.
    destruct (String.eqb_spec k key) as [<-|Hne];
      [|rewrite app_nil_r; by apply Hasc].
    rewrite ascending_snoc, (Hasc Hpos k). cbn [andb].
    specialize (Hlast k). unfold fromBlockIn. fold k. rewrite Hlast.
    destruct (last (rangesOf k (fetched w))) as [[f0 t0]|] eqn:Hl; [|done].
    cbn [fmap option_fmap option_map snd] in *.
    destruct (Hbound k t0) as (c & -> & Hc); [by rewrite Hlast|].
    unfold fromBlockOf, truthy. destruct (Z.eqb_spec c 0); [lia|].
    cbn. lia.
  - intros key c Hc. rewrite Hcursors.
    destruct (decide (k = key)) as [<-|Hne].
    + rewrite lookup_insert_eq. exists L. split; [done|].
      revert Hrun. unfold skipped, fromBlockIn. fold k. rewrite Hc.
      unfold fromBlockOf, truthy. destruct (Z.eqb_spec c 0) as [->|_]; cbn.
      * destruct (Hbound k (Int 0) Hc) as (c0 & [= <-] & ?). lia.
      * lia.
    + rewrite lookup_insert_ne by done. exists c. by split.
Qed.

Lemma advances_processNetworkLogs_body (env : Env) (lo : Z) (event : Target.t)
    (RPC_URL strategy : string) (L : Z) :
  0 ≤ lo → lo ≤ L →
  preserves (advances lo)
    (processNetworkLogs_body env event RPC_URL (Int L) strategy).
Proof.
  intros Hlo HL w.
  destruct (skipped w event strategy (Int L)) eqn:Hrun.
  { rewrite body_skipped by done. reflexivity. }
  destruct (getEventTopic_cases (Target.event event)) as [[topic Htopic]|Htopic].
  2:{ rewrite (body_unknown_event _ _ _ _ _ _ _ Hrun Htopic).
      by apply same_store_advances. }
  destruct (getLogsAnswer env w event RPC_URL strategy (Int L) topic)
    as [m|[logs|]] eqn:Hans.
  - rewrite (body_rejected _ _ _ _ _ _ _ Hrun Htopic _ Hans).
    by apply same_store_advances.
  - destruct (body_fetched _ _ _ _ _ _ _ Hrun Htopic _ Hans) as (delta & -> & _).
    by apply (advances_fetched lo _ _ event strategy L).
  - rewrite (body_no_result _ _ _ _ _ _ _ Hrun Htopic Hans).
    by apply same_store_advances.
Qed.

Lemma advances_processNetworkLogs (env : Env) (lo : Z)
    (networkEvents : list Target.t) (RPC_URL strategy : string) (L : Z) :
  0 ≤ lo → lo ≤ L →
  preserves (advances lo)
    (processNetworkLogs env networkEvents RPC_URL (Int L) strategy).
Proof.
  intros Hlo HL.
  induction networkEvents as [|event rest IH]; cbn [processNetworkLogs].
  - apply preserves_ret, _.
  - apply preserves_bind; [apply _| |intros _; exact IH].
    by apply advances_processNetworkLogs_body.
Qed.

(** A latest block that [getLatestBlockNumber] returns is one of the heights
    the endpoint reported. *)
Lemma getLatestBlockNumber_height (env : Env) (lo : Z) (RPC_URL strategy : string)
    (w : World) (latestBlock : number) :
  heights_from lo env →
  fst (getLatestBlockNumber env RPC_URL strategy w) = Ok latestBlock →
  ∃ L, latestBlock = Int L ∧ (0 ≤ lo ≤ MAX_EXACT → lo ≤ L).
Proof.
  assert (∀ s, (∃ L, parseInt16 s = Int L ∧ lo ≤ L) →
               ∃ L, parseInt s = Int L ∧ (0 ≤ lo ≤ MAX_EXACT → lo ≤ L))
    as Hround.
  { intros s [L [Hs HL]]. exists (toDouble L). unfold parseInt. rewrite Hs.
    split; [done|]. intros Hlo. by apply toDouble_ge. }
  intros [Hnumber Hfinalized].
  unfold getLatestBlockNumber, try_catch, mbind, M_bind, next_requestId,
    axios_post, console_error, emit, throw, mret, M_ret.
  destruct (String.eqb strategy "eth_blockNumber").
  { match goal with
    | |- context [answer_blockNumber env ?h ?u ?b] =>
        specialize (Hnumber h u b);
        destruct (answer_blockNumber env h u b) as [m|[s|]]
    end; cbn; [discriminate| |done].
    intros [= <-]. by apply Hround. }
  destruct (String.eqb strategy "eth_getBlockByNumber"); [|discriminate].
  match goal with
  | |- context [answer_getBlockByNumber env ?h ?u ?b] =>
      specialize (Hfinalized h u b);
      destruct (answer_getBlockByNumber env h u b) as [m|[[[|c s]|]|]]
  end; cbn; try discriminate.
  intros [= <-]. by apply Hround.
Qed.

Lemma advances_processLogs_network (env : Env) (lo : Z)
    (entry : string * list Target.t) :
  0 ≤ lo ≤ MAX_EXACT → heights_from lo env →
  preserves (advances lo) (processLogs_network env entry).
Proof.
  intros Hlo Henv. destruct entry as [network networkEvents].
  unfold processLogs_network.
  apply preserves_bind; [apply _|apply preserves_lift, _|intros RPC_URL].
  apply preserves_bind_ok; [apply _| |].
  { apply preserves_same_store_advances, same_store_getLatestBlockNumber. }
  intros w latest1 [L1 [-> HL1]]%(getLatestBlockNumber_height env lo); [|done].
  generalize (snd (getLatestBlockNumber env RPC_URL "eth_blockNumber" w)).
  apply preserves_bind_ok; [apply _| |].
  { apply preserves_same_store_advances, same_store_getLatestBlockNumber. }
  clear w. intros w latest2 [L2 [-> HL2]]%(getLatestBlockNumber_height env lo);
    [|done].
  generalize (snd (getLatestBlockNumber env RPC_URL "eth_getBlockByNumber" w)).
  apply preserves_bind; [apply _| |intros _];
    apply advances_processNetworkLogs; auto; lia.
Qed.

Lemma advances_processLogs (env : Env) (lo : Z) :
  0 ≤ lo ≤ MAX_EXACT → heights_from lo env →
  preserves (advances lo) (processLogs env).
Proof.
  intros Hlo Henv.
  assert (∀ entries, preserves (advances lo) (processLogs_networks env entries))
    as Hnetworks.
  { induction entries as [|entry rest IH]; cbn [processLogs_networks].
    - apply preserves_ret, _.
    - apply preserves_bind; [apply _| |intros _; exact IH].
      by apply advances_processLogs_network. }
  assert (∀ e, preserves (advances lo) (emit e)) as Hemit.
  { intros e. by apply preserves_same_store_advances. }
  unfold processLogs, processLogs_try, console_error, log.
  repeat first [ apply Hnetworks | apply Hemit | preserve_step ].
Qed.

Lemma advances_runContinuously (env : Env) (lo : Z) (n : nat) :
  0 ≤ lo ≤ MAX_EXACT → heights_from lo env →
  preserves (advances lo) (runContinuously env n).
Proof.
  intros Hlo Henv. induction n as [|n IH]; cbn [runContinuously].
  - apply preserves_ret, _.
  - apply preserves_bind; [apply _| |intros _; exact IH].
    apply preserves_try_catch; [apply _|by apply advances_processLogs|].
    intros e. by apply preserves_same_store_advances.
Qed.

Lemma initial_consistent (lo : Z) (events : list Target.t) :
  consistent lo (initial events).
Proof.
  split; [|split].
  - intros key v. unfold initial. cbn [lastProcessedBlocks].
    by rewrite lookup_empty.
  - intros key. unfold initial. cbn [lastProcessedBlocks fetched].
    by rewrite lookup_empty.
  - by intros _ key.
Qed.

(** X21.  As long as the endpoints report block heights that are natural
    numbers, no cursor ever decreases, however many iterations run and whatever
    fails in them. *)
Lemma cursor_never_decreases (env : Env) (n : nat) (w : World) :
  heights_from 0 env → consistent 0 w →
  never_decreases w (snd (runContinuously env n w)).
Proof.
  intros Henv Hw.
  assert (0 ≤ 0 ≤ MAX_EXACT) as Hlo by (unfold MAX_EXACT; lia).
  by destruct (advances_runContinuously env 0 n Hlo Henv w Hw).
Qed.

(** X22.  As long as the endpoints report heights from 1 up to 2^53 - 1,
    where adding 1 to a cursor is exact, the ranges fetched under any key
    since the start of the process ascend: each one starts above the end of
    the one before it. *)
Lemma ranges_ascend_for_positive_heights (env : Env) (n : nat)
    (events : list Target.t) :
  heights_from 1 env → heights_below MAX_EXACT env →
  ranges_ascend (snd (runContinuously env n (initial events))).
Proof.
  intros Henv _.
  assert (0 ≤ 1 ≤ MAX_EXACT) as Hlo by (unfold MAX_EXACT; lia).
  destruct (advances_runContinuously env 1 n Hlo Henv (initial events)
              (initial_consistent 1 events)) as [(_ & _ & Hasc) _].
  by apply Hasc.
Qed.

Example quiet_heights : heights_from 1 quiet.
Proof. split; intros history url body; cbn; exists 100; by split. Qed.

(** ** Ordered ranges *)

Lemma grows_ordered_processNetworkLogs (env : Env)
    (networkEvents : list Target.t) (RPC_URL strategy : string) (L : Z) :
  preserves (grows ordered)
    (processNetworkLogs env networkEvents RPC_URL (Int L) strategy).
Proof.
  intros w.
  destruct (processNetworkLogs_requests_ordered env networkEvents RPC_URL
              strategy L w) as (delta & Hdelta & Hposts).
  exists delta. split; [done|].
  eapply Forall_impl; [exact Hposts|].
  intros [url body]. unfold ordered. cbn [snd].
  intros (f & address & topic & id & -> & Hle). exists f, L. by repeat split.
Qed.

Lemma grows_ordered_runContinuously (env : Env) (lo : Z) (n : nat) :
  heights_from lo env → preserves (grows ordered) (runContinuously env n).
Proof.
  intros Henv.
  assert (∀ entry, preserves (grows ordered) (processLogs_network env entry))
    as Hnetwork.
  { intros [network networkEvents]. unfold processLogs_network.
    apply preserves_bind; [apply _|apply preserves_lift, _|intros RPC_URL].
    apply preserves_bind_ok; [apply _| |].
    { by apply grows_getLatestBlockNumber_heights. }
    intros w latest1 [L1 [-> _]]%(getLatestBlockNumber_height env lo); [|done].
    generalize (snd (getLatestBlockNumber env RPC_URL "eth_blockNumber" w)).
    apply preserves_bind_ok; [apply _| |].
    { by apply grows_getLatestBlockNumber_heights. }
    clear w. intros w latest2 [L2 [-> _]]%(getLatestBlockNumber_height env lo);
      [|done].
    generalize (snd (getLatestBlockNumber env RPC_URL "eth_getBlockByNumber" w)).
    apply preserves_bind; [apply _| |intros _];
      apply grows_ordered_processNetworkLogs. }
  assert (∀ entries, preserves (grows ordered) (processLogs_networks env entries))
    as Hnetworks.
  { induction entries as [|entry rest IH]; cbn [processLogs_networks].
    - apply preserves_ret, _.
    - apply preserves_bind; [apply _|apply Hnetwork|intros _; exact IH]. }
  induction n as [|n IH]; cbn [runContinuously].
  - apply preserves_ret, _.
  - apply preserves_bind; [apply _| |intros _; exact IH].
    apply preserves_try_catch; [apply _| |intros e; apply grows_log].
    unfold processLogs, processLogs_try.
    repeat first
      [ apply Hnetworks | apply grows_log | apply grows_console_error
      | preserve_step ].
Qed.

(** When the computed [fromBlock] exceeds the latest block, the turn
    changes nothing at all: no request goes out and the cursor keeps its
    value.  Hence every [eth_getLogs] request that [processNetworkLogs]
    sends for a latest block that is an integer [L] asks for a range [f..L]
    with [f <= L], and so does every such request of the poller as long as
    every answer to a latest-block query carries a quantity. *)
Lemma skip_when_nothing_new (env : Env) (w : World) (event : Target.t)
    (RPC_URL strategy : string) (latestBlock : number) :
  skipped w event strategy latestBlock = true →
  processNetworkLogs_body env event RPC_URL latestBlock strategy w = (Ok tt, w)
  ∧ (∀ (networkEvents : list Target.t) (L : Z) (w0 : World),
       ∃ delta,
         trace (snd (processNetworkLogs env networkEvents RPC_URL (Int L)
                       strategy w0))
           = trace w0 ++ delta
         ∧ Forall (λ p, ordered_upto L p.2) (posts delta))
  ∧ (∀ (lo : Z) (n : nat) (w0 : World),
       heights_from lo env →
       grows ordered w0 (snd (runContinuously env n w0))).
Proof.
  intros Hskip. split; [by apply body_skipped|]. split.
  - intros networkEvents L w0. apply processNetworkLogs_requests_ordered.
  - intros lo n w0 Henv. by apply (grows_ordered_runContinuously env lo).
Qed.

Example skip_at_the_cursor :
  skipped (synced (Int 100)) uniswap "eth_blockNumber" (Int 100) = true
  ∧ processNetworkLogs_body quiet uniswap "URL" (Int 100) "eth_blockNumber"
      (synced (Int 100))
    = (Ok tt, synced (Int 100)).
Proof.
  split; [reflexivity|].
  apply (skip_when_nothing_new quiet (synced (Int 100)) uniswap "URL"
           "eth_blockNumber" (Int 100)).
  reflexivity.
Defined.

(** ** Outside the block numbers *)

(** [parseInt] gives [NaN] on an envelope without [result]; such a latest
    block is above no [fromBlock], so the guard of line 185 lets the turn
    through with a range that has no upper end. *)
Example nan_latest_is_not_skipped :
  skipped (synced (Int 100)) uniswap "eth_blockNumber" NaN = false
  ∧ (posts (trace (snd (processNetworkLogs_body quiet uniswap "URL" NaN
                          "eth_blockNumber" (synced (Int 100)))))).*2
    = [eth_getLogs "0x65" "0xNaN" "0xABC"
         "0x0d3648bd0f6ba80134a33ba9275ac585d9d315f0ad8355cddefde31afa28d0e9" 2].
Proof. repeat split. Qed.

Lemma toString16_is_a_number (z : Z) : toString16 (Int z) ≠ "NaN".
Proof.
  destruct z as [|p|p]; [discriminate| |discriminate].
  intros H.
  pose proof (parseInt16_quantity (N.pos p)) as Hparse.
  change (hex_of_N (N.pos p)) with (toString16 (Int (Z.pos p))) in Hparse.
  rewrite H in Hparse. discriminate.
Qed.

(** C2.  The guard of line 185 does not keep every range ordered.  The
    head query of line 61 reads [result] without looking at the shape of
    the answer (the finalized query, lines 69-74, checks it), so an answer
    without [result] makes the latest block [NaN]; [fromBlock > latestBlock]
    is then false, the turn is not skipped, and with the cursor at 100 the
    poller asks for the blocks [0x65] to [0xNaN]. *)
Theorem missing_head_result_sends_unordered_range :
  let url := "https://eth-mainnet.g.alchemy.com/v2/KEY" in
  let topic :=
    "0x0d3648bd0f6ba80134a33ba9275ac585d9d315f0ad8355cddefde31afa28d0e9" in
  let w := synced (Int 100) in
  let w' := snd (processLogs headless w) in
  getLatestBlockNumber headless url "eth_blockNumber" w
  = (Ok NaN, with_trace [Post url (eth_blockNumber 2)] (with_requestId 3 w))
  ∧ skipped w uniswap "eth_blockNumber" NaN = false
  ∧ posts (trace w')
    = [(url, eth_blockNumber 2); (url, eth_getBlockByNumber 3);
       (url, eth_getLogs "0x65" "0xNaN" "0xABC" topic 4);
       (url, eth_getLogs "0x64" "0x64" "0xABC" topic 5)]
  ∧ ¬ Forall ordered (posts (trace w')).
Proof.
  intros url topic w w'.
  split; [reflexivity|]. split; [reflexivity|].
  assert (posts (trace w')
          = [(url, eth_blockNumber 2); (url, eth_getBlockByNumber 3);
             (url, eth_getLogs "0x65" "0xNaN" "0xABC" topic 4);
             (url, eth_getLogs "0x64" "0x64" "0xABC" topic 5)]) as Hposts
    by reflexivity.
  split; [exact Hposts|].
  rewrite Hposts. intros Hall.
  apply Forall_cons_1 in Hall as [_ Hall].
  apply Forall_cons_1 in Hall as [_ Hall].
  apply Forall_cons_1 in Hall as [(f & L & _ & HL & _) _].
  apply (toString16_is_a_number L). by injection HL.
Qed.

(** ** Cursor keys *)

Lemma append_cons (c : ascii) (s t : string) :
  String c s +:+ t = String c (s +:+ t).
Proof. reflexivity. Qed.

Lemma chars_append (s1 s2 : string) :
  String.list_ascii_of_string (s1 +:+ s2)
  = String.list_ascii_of_string s1 ++ String.list_ascii_of_string s2.
Proof.
  induction s1 as [|c s1 IH]; [done|].
  rewrite append_cons. cbn [String.list_ascii_of_string app]. by f_equal.
Qed.

Lemma chars_inj (s1 s2 : string) :
  String.list_ascii_of_string s1 = String.list_ascii_of_string s2 → s1 = s2.
Proof.
  intros H. rewrite <- (String.string_of_list_ascii_of_string s1),
    <- (String.string_of_list_ascii_of_string s2). by rewrite H.
Qed.

Lemma append_assoc (s1 s2 s3 : string) :
  (s1 +:+ s2) +:+ s3 = s1 +:+ (s2 +:+ s3).
Proof.
  induction s1 as [|c s1 IH]; [done|]. rewrite !append_cons. by f_equal.
Qed.

Lemma append_inj_r (s1 s2 t : string) : s1 +:+ t = s2 +:+ t → s1 = s2.
Proof.
  intros H. apply chars_inj.
  apply (f_equal String.list_ascii_of_string) in H.
  rewrite !chars_append in H. by apply app_inv_tail in H.
Qed.

Lemma split_at_first_dash (c1 c2 r1 r2 : string) :
  no_dash c1 = true → no_dash c2 = true →
  c1 +:+ String "-" r1 = c2 +:+ String "-" r2 → c1 = c2 ∧ r1 = r2.
Proof.
  revert c2. induction c1 as [|a c1 IH]; intros [|b c2];
    rewrite ?append_cons; cbn [no_dash].
  - intros _ _ [= ->]. done.
  - intros _ [Hb _]%andb_prop [= <- _]. done.
  - intros [Ha _]%andb_prop _ [= -> _]. done.
  - intros [_ H1]%andb_prop [_ H2]%andb_prop [= -> H].
    destruct (IH c2 H1 H2 H) as [-> ->]. done.
Qed.

Lemma strategies_never_overlap (a1 a2 : string) :
  a1 +:+ "-eth_blockNumber" ≠ a2 +:+ "-eth_getBlockByNumber".
Proof.
  intros H. apply (f_equal String.list_ascii_of_string) in H.
  rewrite !chars_append in H.
  change (String.list_ascii_of_string "-eth_getBlockByNumber")
    with (String.list_ascii_of_string "-eth_"
          ++ String.list_ascii_of_string "getBlockByNumber") in H.
  rewrite app_assoc in H. apply app_inj_2 in H as [_ H]; [|done].
  discriminate H.
Qed.

(** X1.  The cursors of the poller never mix: for two targets whose chain
    names hold no dash (as the six supported names do) and two of the
    strategies of [processLogs], the keys are equal only if the chains, the
    factory addresses and the strategies are. *)
Theorem cursor_keys_are_distinct (event1 event2 : Target.t)
    (strategy1 strategy2 : string) :
  no_dash (Target.chain event1) = true →
  no_dash (Target.chain event2) = true →
  strategy1 ∈ strategies → strategy2 ∈ strategies →
  cursorKey event1 strategy1 = cursorKey event2 strategy2 →
  Target.chain event1 = Target.chain event2
  ∧ Target.factory_address event1 = Target.factory_address event2
  ∧ strategy1 = strategy2.
Proof.
  intros Hc1 Hc2 Hs1 Hs2. unfold cursorKey. rewrite !append_assoc.
  change ("-" +:+ ?s) with (String "-" s).
  intros [-> Hrest]%split_at_first_dash; [|done..].
  split; [done|]. revert Hs1 Hs2 Hrest. unfold strategies.
  rewrite !elem_of_cons, !elem_of_nil.
  intros [->|[->|[]]] [->|[->|[]]] Hrest.
  - by apply append_inj_r in Hrest as ->.
  - by apply strategies_never_overlap in Hrest.
  - symmetry in Hrest. by apply strategies_never_overlap in Hrest.
  - by apply append_inj_r in Hrest as ->.
Qed.

Lemma cursor_keys_are_distinct_witness :
  no_dash (Target.chain uniswap) = true
  ∧ (Target.chain uniswap = Target.chain swaps
     ∧ Target.factory_address uniswap = Target.factory_address swaps
     ∧ "eth_blockNumber" = "eth_blockNumber").
Proof.
  split; [reflexivity|].
  apply (cursor_keys_are_distinct uniswap swaps "eth_blockNumber"
           "eth_blockNumber"); try reflexivity.
  all: unfold strategies; rewrite elem_of_cons; by left.
Defined.

(** X2.  A dash inside a chain name or an address makes keys collide: the
    target [a-b] / [c] and the target [a] / [b-c] share their cursor under
    every strategy. *)
Theorem cursor_keys_collide_on_dashes (a b c name1 event1 name2 event2
    strategy : string) :
  cursorKey (Target.mk (a +:+ "-" +:+ b) c name1 event1) strategy
  = cursorKey (Target.mk a (b +:+ "-" +:+ c) name2 event2) strategy.
Proof.
  unfold cursorKey. cbn [Target.chain Target.factory_address].
  by rewrite !append_assoc.
Qed.

(** ** Endpoints and quantities *)

(** X3.  No two chains share an endpoint: [getRpcUrl] gives equal URLs only
    for equal chain names, whatever the API key is. *)
Theorem endpoints_are_distinct (env : Env) (chain1 chain2 url : string) :
  getRpcUrl env chain1 = Ok url → getRpcUrl env chain2 = Ok url →
  chain1 = chain2.
Proof.
  intros H1 H2.
  pose proof (getRpcUrl_ok_supported _ _ _ H1) as Hc1.
  pose proof (getRpcUrl_ok_supported _ _ _ H2) as Hc2.
  revert Hc1 Hc2 H1 H2. unfold supported_chains.
  rewrite !elem_of_cons, !elem_of_nil.
  intros [->|[->|[->|[->|[->|[->|[]]]]]]] [->|[->|[->|[->|[->|[->|[]]]]]]];
    cbn; intros [= <-]; try done; intros [= ?].
Qed.

Lemma endpoints_are_distinct_witness :
  getRpcUrl quiet "celo" = Ok "https://celo-mainnet.g.alchemy.com/v2/KEY"
  ∧ "celo" = "celo".
Proof.
  split; [reflexivity|].
  apply (endpoints_are_distinct quiet "celo" "celo"
           "https://celo-mainnet.g.alchemy.com/v2/KEY"); reflexivity.
Defined.


(** The same holds of [parseInt] for every natural number that is a
    double: the rounding leaves the bounds that the program has written
    as they are. *)
Lemma written_bound_reads_back (z : Z) :
  0 ≤ z → toDouble z = z → parseInt ("0x" +:+ toString16 (Int z)) = Int z.
Proof.
  intros Hz Hdouble. unfold parseInt.
  replace (toString16 (Int z)) with (hex_of_N (Z.to_N z)) by (by destruct z).
  rewrite parseInt16_quantity, Z2N.id by done. by rewrite Hdouble.
Qed.

(** ** The latest block *)

(** X5.  For a strategy other than the two known ones,
    [getLatestBlockNumber] sends nothing and leaves [requestId] alone: it
    reports the unsupported strategy on the console and throws it. *)
Theorem unsupported_strategy_sends_nothing (env : Env) (RPC_URL strategy : string)
    (w : World) :
  strategy ∉ strategies →
  getLatestBlockNumber env RPC_URL strategy w
  = (Throw (Error ("Unsupported strategy: " +:+ strategy)),
     with_trace
       (trace w
        ++ [ConsoleError ("Error in getLatestBlockNumber (" +:+ strategy +:+ "):")
              ("Unsupported strategy: " +:+ strategy)])
       w).
Proof.
  unfold strategies. rewrite !elem_of_cons, elem_of_nil. intros Hnot.
  unfold getLatestBlockNumber.
  destruct (String.eqb_spec strategy "eth_blockNumber") as [->|_]; [tauto|].
  destruct (String.eqb_spec strategy "eth_getBlockByNumber") as [->|_]; [tauto|].
  reflexivity.
Qed.

Lemma unsupported_strategy_sends_nothing_witness :
  ("eth_call" ∉ strategies)
  ∧ fst (getLatestBlockNumber quiet "URL" "eth_call" (initial []))
    = Throw (Error "Unsupported strategy: eth_call").
Proof.
  assert ("eth_call" ∉ strategies) as Hnot.
  { unfold strategies. rewrite !elem_of_cons, elem_of_nil.
    intros [?|[?|[]]]; discriminate. }
  split; [exact Hnot|].
  by rewrite (unsupported_strategy_sends_nothing quiet "URL" "eth_call"
                (initial []) Hnot).
Defined.

(** X6.  An envelope without [result] is an error for the finalized-block
    query only.  [eth_getBlockByNumber] reports it and throws the
    invalid-structure error; [eth_blockNumber] has no such check and returns
    [NaN] as the latest block. *)
Theorem missing_result_is_checked_for_finalized_only (env : Env)
    (RPC_URL : string) (w : World) :
  (answer_blockNumber env (trace w) RPC_URL (eth_blockNumber (requestId w))
     = Resolved None →
   getLatestBlockNumber env RPC_URL "eth_blockNumber" w
   = (Ok NaN,
      with_trace (trace w ++ [Post RPC_URL (eth_blockNumber (requestId w))])
        (with_requestId (requestId w + 1) w)))
  ∧ (answer_getBlockByNumber env (trace w) RPC_URL
       (eth_getBlockByNumber (requestId w)) = Resolved None →
     getLatestBlockNumber env RPC_URL "eth_getBlockByNumber" w
     = (Throw ProtocolError,
        with_trace
          (trace w
           ++ [Post RPC_URL (eth_getBlockByNumber (requestId w));
               ConsoleErrorResponse "Unexpected response structure:" None;
               ConsoleError "Error in getLatestBlockNumber (eth_getBlockByNumber):"
                 "Invalid response structure for eth_getBlockByNumber"])
          (with_requestId (requestId w + 1) w))).
Proof.
  split; intros Hans;
    unfold getLatestBlockNumber, try_catch, mbind, M_bind, next_requestId,
      axios_post, console_error, emit, throw;
    cbn [String.eqb Ascii.eqb Bool.eqb]; world_simpl; rewrite Hans;
    cbv beta iota zeta; world_simpl.
  - reflexivity.
  - by rewrite <- !app_assoc.
Qed.

Lemma missing_result_is_checked_for_finalized_only_witness :
  fst (getLatestBlockNumber malformed "URL" "eth_getBlockByNumber" (initial []))
  = Throw ProtocolError.
Proof.
  by rewrite (proj2 (missing_result_is_checked_for_finalized_only malformed
                       "URL" (initial []))).
Defined.

(** X7.  A latest block that is [NaN] is never skipped, whatever the cursor
    is.  If the fetch of such a turn returns, the cursor of the key becomes
    [NaN], which reads as unset: the next turn starts at its own latest
    block, and the position the key had reached is lost. *)
Theorem NaN_height_resets_the_cursor (env : Env) (w : World) (event : Target.t)
    (RPC_URL strategy eventTopic : string) (logs : list RawLogEntry.t) :
  getEventTopic (Target.event event) = Ok eventTopic →
  getLogsAnswer env w event RPC_URL strategy NaN eventTopic
    = Resolved (Some logs) →
  skipped w event strategy NaN = false
  ∧ fst (processNetworkLogs_body env event RPC_URL NaN strategy w) = Ok tt
  ∧ lastProcessedBlocks
      (snd (processNetworkLogs_body env event RPC_URL NaN strategy w))
    !! cursorKey event strategy = Some NaN
  ∧ ∀ latestBlock,
      fromBlockIn (snd (processNetworkLogs_body env event RPC_URL NaN strategy w))
        event strategy latestBlock
      = latestBlock.
Proof.
  intros Htopic Hans.
  assert (skipped w event strategy NaN = false) as Hrun.
  { unfold skipped, gt. by destruct (fromBlockIn w event strategy NaN). }
  destruct (body_fetched _ _ _ _ _ _ _ Hrun Htopic _ Hans) as (delta & -> & _).
  cbn [fst snd]. unfold fromBlockIn. world_simpl.
  rewrite lookup_insert_eq. done.
Qed.

Lemma NaN_height_resets_the_cursor_witness :
  fromBlockIn
    (snd (processNetworkLogs_body quiet uniswap "URL" NaN "eth_blockNumber"
            (synced (Int 100))))
    uniswap "eth_blockNumber" (Int 7)
  = Int 7.
Proof.
  apply (NaN_height_resets_the_cursor quiet (synced (Int 100)) uniswap "URL"
           "eth_blockNumber"
           "0x0d3648bd0f6ba80134a33ba9275ac585d9d315f0ad8355cddefde31afa28d0e9"
           []);
    reflexivity.
Defined.

(** ** Request identifiers *)

Global Instance numbered_preorder : PreOrder numbered.
Proof.
  split.
  - intros w. exists []. rewrite app_nil_r. cbn. split; [done|]. split; [done|lia].
  - intros w1 w2 w3 (d1 & H1 & I1 & N1) (d2 & H2 & I2 & N2). exists (d1 ++ d2).
    rewrite H2, H1, app_assoc, posts_app, fmap_app, length_app, I1, I2, N2, N1.
    split; [done|]. split; [|lia].
    rewrite Nat2Z.inj_add, seqZ_app by lia. done.
Qed.

Lemma numbered_quiet (w w' : World) (delta : list IO) :
  trace w' = trace w ++ delta → posts delta = [] → requestId w' = requestId w →
  numbered w w'.
Proof.
  intros Htrace Hposts Hid. exists delta. rewrite Hposts. cbn.
  split; [done|]. split; [done|lia].
Qed.

Lemma numbered_emit (e : IO) : posts [e] = [] → preserves numbered (emit e).
Proof. intros He w. by apply (numbered_quiet _ _ [e]). Qed.

Lemma numbered_same_trace {A} (m : M A) :
  (∀ w, trace (snd (m w)) = trace w ∧ requestId (snd (m w)) = requestId w) →
  preserves numbered m.
Proof.
  intros Hm w. destruct (Hm w) as [Htrace Hid].
  apply (numbered_quiet _ _ []); [by rewrite app_nil_r|done..].
Qed.

(** A request built with a fresh id, then anything that keeps the
    numbering. *)
Lemma numbered_fresh_post {A B} (answer : list IO → string → Request → Axios A)
    (url : string) (build : Z → Request) (k : A → M B) :
  (∀ id, request_id (build id) = id) →
  (∀ a, preserves numbered (k a)) →
  preserves numbered
    (id ← next_requestId; result ← axios_post answer url (build id); k result).
Proof.
  intros Hbuild Hk w.
  assert (numbered w
            (with_trace (trace w ++ [Post url (build (requestId w))])
               (with_requestId (requestId w + 1) w))) as Hpost.
  { exists [Post url (build (requestId w))]. cbn. rewrite Hbuild.
    split; [done|]. split; [done|lia]. }
  unfold mbind, M_bind, next_requestId, axios_post. world_simpl.
  destruct (answer (trace w) url (build (requestId w))) as [m|a];
    cbv beta iota zeta; cbn [snd]; [exact Hpost|].
  etrans; [exact Hpost|]. apply Hk.
Qed.

Section Numbering.
Context (env : Env).

Ltac number :=
  repeat first
    [ by apply numbered_emit
    | by apply numbered_same_trace
    | apply numbered_fresh_post; [by intros ?|]
    | preserve_step ].

Lemma numbered_getLatestBlockNumber (RPC_URL strategy : string) :
  preserves numbered (getLatestBlockNumber env RPC_URL strategy).
Proof. unfold getLatestBlockNumber, console_error. number. Qed.

Lemma numbered_insertLogs (logs : list RawLogEntry.t) (event : Target.t)
    (strategy : string) :
  preserves numbered (insertLogs env logs event strategy).
Proof.
  intros w. destruct (insertLogs_spec env event strategy logs w)
    as (delta & -> & _ & Hposts & _).
  by apply (numbered_quiet _ _ delta).
Qed.

Lemma numbered_getLogs (RPC_URL contractAddress eventTopic : string)
    (fromBlock toBlock : number) :
  preserves numbered
    (getLogs env RPC_URL contractAddress eventTopic fromBlock toBlock).
Proof.
  intros w. unfold getLogs, mbind, M_bind, next_requestId, axios_post.
  world_simpl.
  match goal with
  | |- context [Post RPC_URL ?body] => exists [Post RPC_URL body]
  end.
  destruct (answer_getLogs env _ _ _); cbn; (split; [done|split; [done|lia]]).
Qed.

Lemma numbered_processNetworkLogs_body (event : Target.t) (RPC_URL : string)
    (latestBlock : number) (strategy : string) :
  preserves numbered
    (processNetworkLogs_body env event RPC_URL latestBlock strategy).
Proof.
  unfold processNetworkLogs_body, log.
  repeat first
    [ apply numbered_insertLogs
    | apply numbered_getLogs
    | by apply numbered_emit
    | by apply numbered_same_trace
    | preserve_step ].
Qed.

Lemma numbered_processNetworkLogs (networkEvents : list Target.t)
    (RPC_URL : string) (latestBlock : number) (strategy : string) :
  preserves numbered
    (processNetworkLogs env networkEvents RPC_URL latestBlock strategy).
Proof.
  induction networkEvents as [|event rest IH]; cbn [processNetworkLogs].
  - apply preserves_ret, _.
  - apply preserves_bind; [apply _|apply numbered_processNetworkLogs_body|].
    intros _. exact IH.
Qed.

Lemma numbered_processLogs : preserves numbered (processLogs env).
Proof.
  assert (∀ entries, preserves numbered (processLogs_networks env entries))
    as Hnetworks.
  { induction entries as [|[network networkEvents] rest IH];
      cbn [processLogs_networks].
    - apply preserves_ret, _.
    - apply preserves_bind; [apply _| |intros _; exact IH].
      unfold processLogs_network.
      repeat first
        [ apply numbered_getLatestBlockNumber
        | apply numbered_processNetworkLogs
        | preserve_step ]. }
  unfold processLogs, processLogs_try, console_error, log.
  repeat first [ apply Hnetworks | by apply numbered_emit | preserve_step ].
Qed.
End Numbering.

Lemma numbered_runContinuously (env : Env) (n : nat) :
  preserves numbered (runContinuously env n).
Proof.
  induction n as [|n IH]; cbn [runContinuously].
  - apply preserves_ret, _.
  - apply preserves_bind; [apply _| |intros _; exact IH].
    apply preserves_try_catch; [apply _|apply numbered_processLogs|].
    intros e. by apply numbered_emit.
Qed.

(** X8.  Request identifiers are not reused while the counter is in the
    range where [requestId++] is exact.  Over any number of iterations that
    start with [requestId] at -2^53 or above and end with it at 2^53 or
    below, whatever fails in them, the requests that go out carry the
    consecutive ids [requestId w], [requestId w + 1], ... in the order in
    which they are sent, and [requestId] ends one above the last. *)
Theorem request_ids_are_consecutive (env : Env) (n : nat) (w : World) :
  - MAX_EXACT ≤ requestId w →
  requestId (snd (runContinuously env n w)) ≤ MAX_EXACT →
  numbered w (snd (runContinuously env n w)).
Proof. intros _ _. apply numbered_runContinuously. Qed.

Lemma request_ids_are_consecutive_witness :
  - MAX_EXACT ≤ requestId (initial [uniswap])
  ∧ requestId (snd (runContinuously quiet 2 (initial [uniswap]))) ≤ MAX_EXACT
  ∧ numbered (initial [uniswap])
      (snd (runContinuously quiet 2 (initial [uniswap]))).
Proof.
  assert (- MAX_EXACT ≤ requestId (initial [uniswap])) as Hfirst
    by (vm_compute; discriminate).
  assert (requestId (snd (runContinuously quiet 2 (initial [uniswap])))
          ≤ MAX_EXACT) as Hlast
    by (vm_compute; discriminate).
  split; [exact Hfirst|]. split; [exact Hlast|].
  apply (request_ids_are_consecutive quiet 2 (initial [uniswap]) Hfirst Hlast).
Defined.

Example request_ids_of_two_iterations :
  (λ p, request_id p.2)
    <$> posts (trace (snd (runContinuously quiet 2 (initial [uniswap]))))
  = [1; 2; 3; 4; 5; 6].
Proof. reflexivity. Qed.

(** ** Turns that fail, turns that repeat *)

(** What a turn does to the cursors, by its outcome. *)
Lemma body_outcome (env : Env) (w : World) (event : Target.t)
    (RPC_URL strategy : string) (latestBlock : number) :
  let r := processNetworkLogs_body env event RPC_URL latestBlock strategy w in
  (skipped w event strategy latestBlock = true ∧ r = (Ok tt, w))
  ∨ (skipped w event strategy latestBlock = false
     ∧ (∃ e, fst r = Throw e) ∧ same_store w (snd r)
     ∧ ∃ delta, trace (snd r) = trace w ++ delta)
  ∨ (skipped w event strategy latestBlock = false
     ∧ fst r = Ok tt
     ∧ lastProcessedBlocks (snd r)
       = <[cursorKey event strategy := latestBlock]> (lastProcessedBlocks w)).
Proof.
  intros r. unfold r.
  destruct (skipped w event strategy latestBlock) eqn:Hrun.
  { left. by rewrite body_skipped. }
  right.
  destruct (getEventTopic_cases (Target.event event)) as [[topic Htopic]|Htopic].
  2:{ left. rewrite (body_unknown_event _ _ _ _ _ _ _ Hrun Htopic).
      repeat split; eauto. }
  destruct (getLogsAnswer env w event RPC_URL strategy latestBlock topic)
    as [m|[logs|]] eqn:Hans.
  - left. rewrite (body_rejected _ _ _ _ _ _ _ Hrun Htopic _ Hans).
    repeat split; eauto.
  - right. destruct (body_fetched _ _ _ _ _ _ _ Hrun Htopic _ Hans)
      as (delta & -> & _). done.
  - left. rewrite (body_no_result _ _ _ _ _ _ _ Hrun Htopic Hans).
    repeat split; eauto.
Qed.

(** X9.  A turn that throws changes no cursor: a cursor moves only in a
    turn that returns normally. *)
Theorem failed_turn_moves_no_cursor (env : Env) (w : World) (event : Target.t)
    (RPC_URL strategy : string) (latestBlock : number) (e : Exn) :
  fst (processNetworkLogs_body env event RPC_URL latestBlock strategy w)
    = Throw e →
  lastProcessedBlocks
    (snd (processNetworkLogs_body env event RPC_URL latestBlock strategy w))
  = lastProcessedBlocks w.
Proof.
  intros Hthrow.
  destruct (body_outcome env w event RPC_URL strategy latestBlock)
    as [[_ Hr]|[(_ & _ & [Hstore _] & _)|(_ & Hok & _)]].
  - by rewrite Hr in Hthrow.
  - done.
  - by rewrite Hok in Hthrow.
Qed.

Lemma failed_turn_moves_no_cursor_witness :
  fst (processNetworkLogs_body offline uniswap "URL" (Int 105) "eth_blockNumber"
         (synced (Int 100)))
    = Throw (AxiosError "Network Error")
  ∧ lastProcessedBlocks
      (snd (processNetworkLogs_body offline uniswap "URL" (Int 105)
              "eth_blockNumber" (synced (Int 100))))
    = lastProcessedBlocks (synced (Int 100)).
Proof.
  split; [reflexivity|].
  apply (failed_turn_moves_no_cursor offline (synced (Int 100)) uniswap "URL"
           "eth_blockNumber" (Int 105) (AxiosError "Network Error")).
  reflexivity.
Defined.

Lemma settled_skipped (L : Z) (w : World) (event : Target.t) (strategy : string) :
  settled L w (cursorKey event strategy) → skipped w event strategy (Int L) = true.
Proof.
  intros (c & Hc & Hne & Hle). unfold skipped, fromBlockIn. rewrite Hc.
  unfold fromBlockOf, truthy. destruct (Z.eqb_spec c 0); [done|]. cbn. lia.
Qed.

Lemma body_settles (env : Env) (L : Z) (w : World) (event : Target.t)
    (RPC_URL strategy : string) :
  L ≠ 0 →
  fst (processNetworkLogs_body env event RPC_URL (Int L) strategy w) = Ok tt →
  settled L (snd (processNetworkLogs_body env event RPC_URL (Int L) strategy w))
    (cursorKey event strategy).
Proof.
  intros HL Hok.
  destruct (body_outcome env w event RPC_URL strategy (Int L))
    as [[Hskip ->]|[(_ & [e He] & _)|(_ & _ & Hcursors)]].
  - cbn [snd]. revert Hskip. unfold skipped, fromBlockIn, fromBlockOf.
    destruct (lastProcessedBlocks w !! cursorKey event strategy) as [[|c]|] eqn:Hc;
      cbn [truthy gt]; try (intros H; lia).
    destruct (Z.eqb_spec c 0); cbn [negb succ gt]; [intros H; lia|].
    intros H. exists c. repeat split; [done..|lia].
  - by rewrite He in Hok.
  - exists L. by rewrite Hcursors, lookup_insert_eq.
Qed.

Lemma body_keeps_settled (env : Env) (L : Z) (w : World) (event : Target.t)
    (RPC_URL strategy key : string) :
  settled L w key →
  settled L (snd (processNetworkLogs_body env event RPC_URL (Int L) strategy w))
    key.
Proof.
  intros Hkey.
  destruct (body_outcome env w event RPC_URL strategy (Int L))
    as [[_ ->]|[(_ & _ & [Hstore _] & _)|(Hrun & _ & Hcursors)]]; [done| |].
  - unfold settled. by rewrite Hstore.
  - unfold settled. rewrite Hcursors.
    destruct (decide (cursorKey event strategy = key)) as [<-|Hne].
    + by rewrite (settled_skipped L w event strategy Hkey) in Hrun.
    + by rewrite lookup_insert_ne.
Qed.

Lemma processNetworkLogs_keeps_settled (env : Env) (L : Z)
    (networkEvents : list Target.t) (RPC_URL strategy key : string) :
  ∀ w, settled L w key →
    settled L
      (snd (processNetworkLogs env networkEvents RPC_URL (Int L) strategy w)) key.
Proof.
  induction networkEvents as [|event rest IH]; intros w Hkey; [done|].
  cbn [processNetworkLogs]. unfold mbind, M_bind.
  pose proof (body_keeps_settled env L w event RPC_URL strategy key Hkey) as H1.
  destruct (processNetworkLogs_body env event RPC_URL (Int L) strategy w)
    as [[[]|e] w1]; cbn [snd] in *; [by apply IH|done].
Qed.

Lemma processNetworkLogs_settles (env : Env) (L : Z)
    (networkEvents : list Target.t) (RPC_URL strategy : string) :
  L ≠ 0 →
  ∀ w,
    fst (processNetworkLogs env networkEvents RPC_URL (Int L) strategy w) = Ok tt →
    Forall
      (λ event,
         settled L
           (snd (processNetworkLogs env networkEvents RPC_URL (Int L) strategy w))
           (cursorKey event strategy))
      networkEvents.
Proof.
  intros HL. induction networkEvents as [|event rest IH]; intros w Hok;
    [constructor|].
  revert Hok. cbn [processNetworkLogs]. unfold mbind, M_bind.
  pose proof (body_settles env L w event RPC_URL strategy HL) as H1.
  destruct (processNetworkLogs_body env event RPC_URL (Int L) strategy w)
    as [[[]|e] w1]; cbn [fst snd] in *; [|discriminate].
  intros Hok. constructor; [|by apply IH].
  apply processNetworkLogs_keeps_settled. by apply H1.
Qed.

Lemma processNetworkLogs_all_settled (env : Env) (L : Z)
    (networkEvents : list Target.t) (RPC_URL strategy : string) (w : World) :
  Forall (λ event, settled L w (cursorKey event strategy)) networkEvents →
  processNetworkLogs env networkEvents RPC_URL (Int L) strategy w = (Ok tt, w).
Proof.
  induction 1 as [|event rest Hkey _ IH]; [done|].
  cbn [processNetworkLogs]. unfold mbind, M_bind.
  by rewrite body_skipped by (by apply settled_skipped).
Qed.

(** X10.  Polling again at the same height does nothing.  Once
    [processNetworkLogs] has returned for a latest block that is an integer
    other than 0, from -2^53 to 2^53 - 1 (where adding 1 to it is exact), a
    second pass over the same targets with the same latest block sends no
    request and changes nothing, whatever the endpoints would answer. *)
Theorem second_pass_is_a_no_op (env env' : Env) (networkEvents : list Target.t)
    (RPC_URL RPC_URL' strategy : string) (L : Z) (w : World) :
  L ≠ 0 → - MAX_EXACT ≤ L < MAX_EXACT →
  fst (processNetworkLogs env networkEvents RPC_URL (Int L) strategy w) = Ok tt →
  processNetworkLogs env' networkEvents RPC_URL' (Int L) strategy
    (snd (processNetworkLogs env networkEvents RPC_URL (Int L) strategy w))
  = (Ok tt, snd (processNetworkLogs env networkEvents RPC_URL (Int L) strategy w)).
Proof.
  intros HL _ Hok. apply processNetworkLogs_all_settled.
  by apply processNetworkLogs_settles.
Qed.

Lemma second_pass_is_a_no_op_witness :
  fst (processNetworkLogs quiet [uniswap] "URL" (Int 100) "eth_blockNumber"
         (initial [uniswap])) = Ok tt
  ∧ processNetworkLogs offline [uniswap] "URL" (Int 100) "eth_blockNumber"
      (snd (processNetworkLogs quiet [uniswap] "URL" (Int 100) "eth_blockNumber"
              (initial [uniswap])))
    = (Ok tt,
       snd (processNetworkLogs quiet [uniswap] "URL" (Int 100) "eth_blockNumber"
              (initial [uniswap]))).
Proof.
  split; [reflexivity|].
  apply (second_pass_is_a_no_op quiet offline [uniswap] "URL" "URL"
           "eth_blockNumber" 100 (initial [uniswap]));
    [lia|unfold MAX_EXACT; lia|reflexivity].
Defined.

(** X11.  Of two rows with the same chain and factory address, only the
    first is ever fetched in a pass.  When the turn of the first has
    returned for a latest block that is an integer other than 0, from -2^53
    to 2^53 - 1 (where adding 1 to it is exact), the turn of the second is
    skipped: no request is made for its event, whatever that event is. *)
Theorem second_row_of_a_factory_is_skipped (env env' : Env) (w : World)
    (event1 event2 : Target.t) (RPC_URL RPC_URL' strategy : string) (L : Z) :
  L ≠ 0 → - MAX_EXACT ≤ L < MAX_EXACT →
  Target.chain event1 = Target.chain event2 →
  Target.factory_address event1 = Target.factory_address event2 →
  fst (processNetworkLogs_body env event1 RPC_URL (Int L) strategy w) = Ok tt →
  processNetworkLogs_body env' event2 RPC_URL' (Int L) strategy
    (snd (processNetworkLogs_body env event1 RPC_URL (Int L) strategy w))
  = (Ok tt, snd (processNetworkLogs_body env event1 RPC_URL (Int L) strategy w)).
Proof.
  intros HL _ Hchain Haddress Hok. apply body_skipped, settled_skipped.
  replace (cursorKey event2 strategy) with (cursorKey event1 strategy)
    by (unfold cursorKey; by rewrite Hchain, Haddress).
  by apply body_settles.
Qed.

Lemma second_row_of_a_factory_is_skipped_witness :
  fst (processNetworkLogs_body quiet uniswap "URL" (Int 100) "eth_blockNumber"
         (initial [uniswap; swaps])) = Ok tt
  ∧ processNetworkLogs_body quiet swaps "URL" (Int 100) "eth_blockNumber"
      (snd (processNetworkLogs_body quiet uniswap "URL" (Int 100)
              "eth_blockNumber" (initial [uniswap; swaps])))
    = (Ok tt,
       snd (processNetworkLogs_body quiet uniswap "URL" (Int 100)
              "eth_blockNumber" (initial [uniswap; swaps]))).
Proof.
  split; [reflexivity|].
  apply (second_row_of_a_factory_is_skipped quiet quiet
           (initial [uniswap; swaps]) uniswap swaps "URL" "URL"
           "eth_blockNumber" 100); [lia|unfold MAX_EXACT; lia|reflexivity..].
Defined.

(** ** Grouping by network *)

Lemma own_property_None {A} (acc : list (string * A)) (key : string) :
  own_property acc key = None ↔ key ∉ acc.*1.
Proof.
  induction acc as [|[k v] acc IH]; cbn.
  - split; [intros _; apply not_elem_of_nil|done].
  - rewrite not_elem_of_cons, <- IH.
    destruct (String.eqb_spec k key) as [->|Hne].
    + split; [done|intros [? _]; done].
    + split; [intros H; split; [congruence|done]|by intros [_ H]].
Qed.

Lemma own_property_elem {A} (acc : list (string * A)) (key : string) (v : A) :
  NoDup acc.*1 → (key, v) ∈ acc ↔ own_property acc key = Some v.
Proof.
  induction acc as [|[k v0] acc IH]; cbn.
  - intros _. split; [by intros ?%elem_of_nil|done].
  - intros [Hk Hnodup]%NoDup_cons. rewrite elem_of_cons, (IH Hnodup).
    destruct (String.eqb_spec k key) as [->|Hne].
    + split; [intros [[= ->]|Hin]; [done|]|intros [= ->]; by left].
      exfalso. apply Hk. apply own_property_None in Hk.
      by rewrite Hk in Hin.
    + split; [intros [[= ? ?]|?]; [congruence|done]|by right].
Qed.

Lemma own_property_app {A} (acc : list (string * A)) (key k : string) (v : A) :
  own_property (acc ++ [(k, v)]) key
  = match own_property acc key with
    | Some v0 => Some v0
    | None => if String.eqb k key then Some v else None
    end.
Proof.
  induction acc as [|[k0 v0] acc IH]; cbn; [done|].
  by destruct (String.eqb k0 key).
Qed.

Lemma push_own_spec (acc : list (string * list Target.t)) (chain : string)
    (event : Target.t) :
  match push_own acc chain event with
  | Some acc' =>
      acc'.*1 = acc.*1
      ∧ ∃ v, own_property acc chain = Some v
             ∧ ∀ key, own_property acc' key
                      = if String.eqb chain key then Some (v ++ [event])
                        else own_property acc key
  | None => own_property acc chain = None
  end.
Proof.
  induction acc as [|[k v] acc IH]; cbn; [done|].
  destruct (String.eqb_spec k chain) as [->|Hne].
  - split; [done|]. exists v. split; [done|]. intros key. cbn.
    by destruct (String.eqb chain key).
  - destruct (push_own acc chain event) as [acc'|]; cbn; [|done].
    destruct IH as (Hkeys & v0 & Hv0 & Hlookup).
    split; [by rewrite Hkeys|]. exists v0. split; [done|]. intros key.
    rewrite Hlookup.
    destruct (String.eqb_spec k key) as [->|]; [|done].
    by destruct (String.eqb_spec chain key) as [->|].
Qed.

Lemma rows_on_snoc (key : string) (seen : list Target.t) (event : Target.t) :
  rows_on key (seen ++ [event])
  = rows_on key seen
    ++ (if String.eqb (Target.chain event) key then [event] else []).
Proof.
  unfold rows_on. rewrite filter_app. f_equal.
  destruct (String.eqb_spec (Target.chain event) key) as [Heq|Hne].
  - by rewrite filter_cons_True.
  - by rewrite filter_cons_False.
Qed.

Lemma group_step_spec (seen : list Target.t) (acc : list (string * list Target.t))
    (event : Target.t) :
  grouped seen acc →
  match group_step acc event with
  | Ok acc' => grouped (seen ++ [event]) acc'
  | Throw e =>
      e = TypeError "acc[event.chain].push is not a function"
  end
  ∧ (Target.chain event ∈ Object_prototype_names ↔
     ∃ e, group_step acc event = Throw e).
Proof.
  intros (Hnodup & Hnames & Hrows). unfold group_step.
  pose proof (push_own_spec acc (Target.chain event) event) as Hpush.
  destruct (push_own acc (Target.chain event) event) as [acc'|].
  - destruct Hpush as (Hkeys & v & Hv & Hlookup). split.
    + split; [by rewrite Hkeys|]. split; [by rewrite Hkeys|].
      intros key. rewrite Hlookup, rows_on_snoc.
      destruct (String.eqb_spec (Target.chain event) key) as [<-|Hne].
      * rewrite Hrows in Hv.
        destruct (rows_on (Target.chain event) seen) as [|r rs]; [done|].
        by injection Hv as <-.
      * by rewrite app_nil_r.
    + split; [|by intros [e ?]]. intros Hproto. exfalso.
      apply (Hnames (Target.chain event)); [|done].
      destruct (decide (Target.chain event ∈ acc.*1)) as [|Hnot]; [done|].
      apply own_property_None in Hnot. congruence.
  - case_bool_decide as Hproto.
    + split; [done|]. split; [eauto|done].
    + split; [|split; [done|by intros [e ?]]].
      assert (Target.chain event ∉ acc.*1) as Hfresh
        by by apply own_property_None.
      split; [|split].
      * rewrite fmap_app. apply NoDup_app. split; [done|].
        split; [|apply NoDup_singleton].
        intros key Hkey ->%list_elem_of_singleton. done.
      * intros key. rewrite fmap_app, elem_of_app.
        intros [?|Heq]; [by apply Hnames|].
        apply list_elem_of_singleton in Heq as ->. done.
      * intros key. rewrite own_property_app, Hrows, rows_on_snoc.
        destruct (String.eqb_spec (Target.chain event) key) as [<-|Hne].
        -- rewrite Hrows in Hpush.
           by destruct (rows_on (Target.chain event) seen).
        -- rewrite app_nil_r. by destruct (rows_on key seen).
Qed.

Lemma reduce_spec (events : list Target.t) :
  ∀ seen acc,
    grouped seen acc →
    match reduce events acc with
    | Ok groups => grouped (seen ++ events) groups
    | Throw e => e = TypeError "acc[event.chain].push is not a function"
    end
    ∧ ((∃ event, event ∈ events ∧ Target.chain event ∈ Object_prototype_names)
       ↔ ∃ e, reduce events acc = Throw e).
Proof.
  induction events as [|event rest IH]; intros seen acc Hacc; cbn [reduce].
  - rewrite app_nil_r. split; [done|].
    split; [|by intros [e ?]].
    intros (ev & Hin & _). by apply elem_of_nil in Hin.
  - destruct (group_step_spec seen acc event Hacc) as [Hstep Hthrow].
    destruct (group_step acc event) as [acc'|e].
    + destruct (IH (seen ++ [event]) acc' Hstep) as [Hrest Hiff].
      rewrite <- app_assoc in Hrest. split; [done|].
      rewrite <- Hiff. split.
      * intros (ev & Hin & Hproto).
        apply elem_of_cons in Hin as [->|Hin]; [|eauto].
        apply Hthrow in Hproto as [? ?]. done.
      * intros (ev & Hin & Hproto). exists ev. split; [by right|done].
    + split; [done|]. split; [eauto|].
      intros _. exists event. split; [by left|]. apply Hthrow. eauto.
Qed.

Lemma grouped_nil : grouped [] [].
Proof.
  split; [constructor|]. split; [by intros key ?%elem_of_nil|done].
Qed.

(** X12.  Grouping loses and invents nothing.  When [reduce] returns, its
    groups have distinct chain names, and a chain has a group exactly when
    some row is on it; the group then holds all the rows on that chain, in
    the order of the file. *)
Theorem grouping_partitions_the_rows (events : list Target.t)
    (groups : list (string * list Target.t)) :
  reduce events [] = Ok groups →
  NoDup groups.*1
  ∧ ∀ chain rows,
      (chain, rows) ∈ groups ↔ rows = rows_on chain events ∧ rows ≠ [].
Proof.
  intros Hreduce. destruct (reduce_spec events [] [] grouped_nil) as [Hgroups _].
  rewrite Hreduce in Hgroups. destruct Hgroups as (Hnodup & _ & Hrows).
  split; [done|]. intros chain rows.
  rewrite (own_property_elem _ _ _ Hnodup), Hrows. cbn [app].
  destruct (rows_on chain events) as [|r rs].
  - split; [done|by intros [-> ?]].
  - split; [by intros [= <-]|by intros [-> _]].
Qed.

Lemma grouping_partitions_the_rows_witness :
  reduce [uniswap; on_solana; swaps] [] = Ok [("ethereum", [uniswap; swaps]);
                                               ("solana", [on_solana])]
  ∧ NoDup [("ethereum", [uniswap; swaps]); ("solana", [on_solana])].*1.
Proof.
  split; [reflexivity|].
  apply (grouping_partitions_the_rows [uniswap; on_solana; swaps]).
  reflexivity.
Defined.

(** X13.  A row whose chain is the name of a property of [Object.prototype]
    (such as [constructor]) stops every iteration before anything is sent:
    grouping throws a type error, which [processLogs] reports, and the
    iteration ends with no request and no cursor changed. *)
Theorem prototype_chain_name_stops_the_poller (env : Env) (w : World)
    (event : Target.t) :
  event ∈ events w →
  Target.chain event ∈ Object_prototype_names →
  processLogs env w
  = (Ok tt,
     with_trace
       (trace w
        ++ [ConsoleError "Error processing logs:"
              "acc[event.chain].push is not a function";
            Logged "Error processing logs: acc[event.chain].push is not a function"])
       w).
Proof.
  intros Hin Hproto.
  destruct (reduce_spec (events w) [] [] grouped_nil) as [Herror Hiff].
  destruct (proj1 Hiff) as [e He]; [eauto|]. rewrite He in Herror. subst e.
  rewrite (processLogs_caught env w w
             (TypeError "acc[event.chain].push is not a function"));
    [reflexivity|].
  unfold processLogs_try, mbind, M_bind, get_events, lift. by rewrite He.
Qed.

Lemma prototype_chain_name_stops_the_poller_witness :
  (Target.chain (Target.mk "constructor" "0xABC" "uniswap" "PairCreated")
   ∈ Object_prototype_names)
  ∧ posts (trace (snd (processLogs quiet
                         (initial [uniswap;
                                   Target.mk "constructor" "0xABC" "uniswap"
                                     "PairCreated"]))))
    = [].
Proof.
  assert (Target.chain (Target.mk "constructor" "0xABC" "uniswap" "PairCreated")
          ∈ Object_prototype_names) as Hproto.
  { cbn. unfold Object_prototype_names. rewrite elem_of_cons. by left. }
  split; [exact Hproto|].
  rewrite (prototype_chain_name_stops_the_poller quiet
             (initial [uniswap;
                       Target.mk "constructor" "0xABC" "uniswap" "PairCreated"])
             (Target.mk "constructor" "0xABC" "uniswap" "PairCreated"));
    [reflexivity| |exact Hproto].
  cbn. rewrite !elem_of_cons. right. by left.
Defined.

(** ** The order of the networks *)

Lemma insert_by_index_perm {A} (i : N) (x : A) (l : list (N * A)) :
  insert_by_index i x l ≡ₚ (i, x) :: l.
Proof.
  induction l as [|[j y] l IH]; cbn; [done|].
  destruct (i <=? j)%N; [done|]. rewrite IH. apply Permutation_swap.
Qed.

Lemma Object_entries_split_perm {A} (own : list (string * A)) :
  (Object_entries_split own).1.*2 ++ (Object_entries_split own).2 ≡ₚ own.
Proof.
  induction own as [|[k v] own IH]; cbn [Object_entries_split]; [done|].
  destruct (Object_entries_split own) as [indexed named]. cbn [fst snd] in *.
  destruct (array_index k) as [i|]; cbn [fst snd].
  - rewrite insert_by_index_perm. cbn. by rewrite IH.
  - rewrite <- Permutation_middle. by rewrite IH.
Qed.

Lemma Object_entries_perm {A} (own : list (string * A)) :
  Object_entries own ≡ₚ own.
Proof.
  unfold Object_entries. pose proof (Object_entries_split_perm own) as H.
  by destruct (Object_entries_split own).
Qed.


(** A chain called [10] is visited before a chain called [ethereum] that
    comes first in the file, and after a chain called [9]. *)
Example numeric_chains_come_first :
  (Object_entries [("ethereum", 1); ("10", 2); ("9", 3)]).*1
  = ["9"; "10"; "ethereum"].
Proof. reflexivity. Qed.

(** ** Iterations *)

(** X15.  With no row in the file the poller spins: an iteration sends
    nothing, logs nothing and changes nothing, and so does any number of
    them. *)
Theorem empty_file_polls_nothing (env : Env) (n : nat) (w : World) :
  events w = [] → runContinuously env n w = (Ok tt, w).
Proof.
  intros Hempty.
  assert (processLogs env w = (Ok tt, w)) as Hone.
  { unfold processLogs, try_catch, processLogs_try, mbind, M_bind, get_events,
      lift. by rewrite Hempty. }
  induction n as [|n IH]; [done|].
  by rewrite runContinuously_next, Hone.
Qed.

Lemma empty_file_polls_nothing_witness :
  runContinuously offline 5 (initial []) = (Ok tt, initial []).
Proof. by apply (empty_file_polls_nothing offline 5 (initial [])). Defined.

(** Running [n + m] iterations is running [n] of them and then [m] more
    from the state they left. *)
Lemma iterations_compose (env : Env) (n m : nat) (w : World) :
  runContinuously env (n + m) w
  = runContinuously env m (snd (runContinuously env n w)).
Proof.
  revert w. induction n as [|n IH]; intros w; [done|].
  by rewrite Nat.add_succ_l, !runContinuously_next, IH.
Qed.

(** ** The two strategies of a network *)

Lemma head_query (env : Env) (RPC_URL : string) (w : World) :
  ∃ delta,
    trace (snd (getLatestBlockNumber env RPC_URL "eth_blockNumber" w))
      = trace w ++ delta
    ∧ posts delta = [(RPC_URL, eth_blockNumber (requestId w))]
    ∧ requestId (snd (getLatestBlockNumber env RPC_URL "eth_blockNumber" w))
      = requestId w + 1.
Proof.
  unfold getLatestBlockNumber, try_catch, mbind, M_bind, next_requestId,
    axios_post, console_error, emit, throw, mret, M_ret.
  cbn [String.eqb Ascii.eqb Bool.eqb]. world_simpl.
  destruct (answer_blockNumber env _ _ _) as [m|r]; cbv beta iota zeta;
    cbn [snd]; world_simpl; rewrite <- ?app_assoc; eexists;
    (split; [reflexivity|by split]).
Qed.

Lemma finalized_query (env : Env) (RPC_URL : string) (w : World) :
  ∃ delta,
    trace (snd (getLatestBlockNumber env RPC_URL "eth_getBlockByNumber" w))
      = trace w ++ delta
    ∧ posts delta = [(RPC_URL, eth_getBlockByNumber (requestId w))]
    ∧ requestId (snd (getLatestBlockNumber env RPC_URL "eth_getBlockByNumber" w))
      = requestId w + 1.
Proof.
  unfold getLatestBlockNumber, try_catch, mbind, M_bind, next_requestId,
    axios_post, console_error, emit, throw, mret, M_ret.
  cbn [String.eqb Ascii.eqb Bool.eqb]. world_simpl.
  destruct (answer_getBlockByNumber env _ _ _) as [m|[[[|c s]|]|]];
    cbv beta iota zeta; cbn [snd]; world_simpl; rewrite <- ?app_assoc; eexists;
    (split; [reflexivity|by split]).
Qed.

(** X17.  The two strategies of a network stand or fall together.  Both
    latest blocks are asked for before any log is fetched, so when the
    finalized-block query fails, the logs of the [eth_blockNumber] strategy
    are not fetched either: the network's turn ends with the error after
    exactly the two latest-block requests, with every cursor as it was. *)
Theorem finalized_failure_stalls_both_strategies (env : Env)
    (network RPC_URL : string) (networkEvents : list Target.t) (w : World)
    (head : number) (e : Exn) :
  getRpcUrl env network = Ok RPC_URL →
  fst (getLatestBlockNumber env RPC_URL "eth_blockNumber" w) = Ok head →
  fst (getLatestBlockNumber env RPC_URL "eth_getBlockByNumber"
         (snd (getLatestBlockNumber env RPC_URL "eth_blockNumber" w)))
    = Throw e →
  fst (processLogs_network env (network, networkEvents) w) = Throw e
  ∧ lastProcessedBlocks (snd (processLogs_network env (network, networkEvents) w))
    = lastProcessedBlocks w
  ∧ ∃ delta,
      trace (snd (processLogs_network env (network, networkEvents) w))
        = trace w ++ delta
      ∧ posts delta
        = [(RPC_URL, eth_blockNumber (requestId w));
           (RPC_URL, eth_getBlockByNumber (requestId w + 1))].
Proof.
  intros Hurl Hhead Hfinalized.
  destruct (head_query env RPC_URL w) as (d1 & Ht1 & Hp1 & Hid1).
  destruct (same_store_getLatestBlockNumber env RPC_URL "eth_blockNumber" w)
    as [Hs1 _].
  destruct (getLatestBlockNumber env RPC_URL "eth_blockNumber" w)
    as [[h|?] w1] eqn:Hcall1; [|discriminate].
  cbn [fst snd] in *.
  destruct (finalized_query env RPC_URL w1) as (d2 & Ht2 & Hp2 & Hid2).
  destruct (same_store_getLatestBlockNumber env RPC_URL "eth_getBlockByNumber" w1)
    as [Hs2 _].
  destruct (getLatestBlockNumber env RPC_URL "eth_getBlockByNumber" w1)
    as [[?|e'] w2] eqn:Hcall2; [discriminate|].
  cbn [fst snd] in *. injection Hfinalized as ->.
  unfold processLogs_network, mbind, M_bind, lift.
  rewrite Hurl, Hcall1, Hcall2. cbn [fst snd].
  split; [done|]. split; [congruence|].
  exists (d1 ++ d2). rewrite Ht2, Ht1, app_assoc, posts_app, Hp1, Hp2, Hid1.
  done.
Qed.

Lemma finalized_failure_stalls_both_strategies_witness :
  fst (getLatestBlockNumber malformed
         "https://eth-mainnet.g.alchemy.com/v2/KEY" "eth_blockNumber"
         (initial [uniswap])) = Ok (Int 100)
  ∧ fst (processLogs_network malformed ("ethereum", [uniswap])
           (initial [uniswap])) = Throw ProtocolError.
Proof.
  split; [reflexivity|].
  apply (finalized_failure_stalls_both_strategies malformed "ethereum"
           "https://eth-mainnet.g.alchemy.com/v2/KEY" [uniswap]
           (initial [uniswap]) (Int 100) ProtocolError); reflexivity.
Defined.

Lemma grows_getLogs_processNetworkLogs (env : Env)
    (networkEvents : list Target.t) (RPC_URL : string) (latestBlock : number)
    (strategy : string) :
  preserves (grows is_getLogs)
    (processNetworkLogs env networkEvents RPC_URL latestBlock strategy).
Proof.
  induction networkEvents as [|event rest IH]; cbn [processNetworkLogs].
  - apply preserves_ret, _.
  - apply preserves_bind; [apply _| |intros _; exact IH].
    unfold processNetworkLogs_body, getLogs.
    repeat first
      [ apply grows_log | apply grows_next_requestId
      | apply grows_record_fetched | apply grows_set_lastProcessedBlock
      | apply grows_insertLogs | by apply grows_axios_post
      | preserve_step ].
Qed.

(** X18.  The latest block is asked for once per network, strategy and
    iteration, not once per target.  The requests of a network's turn are
    the head query, then the finalized query, then nothing but
    [eth_getLogs] requests (the turn may end early after either query). *)
Theorem latest_block_is_asked_once_per_network (env : Env)
    (network RPC_URL : string) (networkEvents : list Target.t) (w : World) :
  getRpcUrl env network = Ok RPC_URL →
  ∃ delta queries fetches,
    trace (snd (processLogs_network env (network, networkEvents) w))
      = trace w ++ delta
    ∧ posts delta = queries ++ fetches
    ∧ queries `prefix_of` [(RPC_URL, eth_blockNumber (requestId w));
                           (RPC_URL, eth_getBlockByNumber (requestId w + 1))]
    ∧ queries ≠ []
    ∧ Forall is_getLogs fetches.
Proof.
  intros Hurl.
  destruct (head_query env RPC_URL w) as (d1 & Ht1 & Hp1 & Hid1).
  unfold processLogs_network, mbind, M_bind, lift. rewrite Hurl.
  destruct (getLatestBlockNumber env RPC_URL "eth_blockNumber" w)
    as [[head|?] w1]; cbn [fst snd] in *.
  2:{ exists d1, (posts d1), []. rewrite app_nil_r, Hp1.
      repeat split; try done. by eexists [_]. }
  destruct (finalized_query env RPC_URL w1) as (d2 & Ht2 & Hp2 & Hid2).
  destruct (getLatestBlockNumber env RPC_URL "eth_getBlockByNumber" w1)
    as [[finalized|?] w2]; cbn [fst snd] in *.
  2:{ exists (d1 ++ d2), (posts (d1 ++ d2)), [].
      rewrite app_nil_r, Ht2, Ht1, app_assoc, posts_app, Hp1, Hp2, Hid1.
      repeat split; done. }
  pose proof (grows_getLogs_processNetworkLogs env networkEvents RPC_URL head
                "eth_blockNumber" w2) as (d3 & Ht3 & Hp3).
  destruct (processNetworkLogs env networkEvents RPC_URL head "eth_blockNumber" w2)
    as [[[]|?] w3]; cbn [fst snd] in *.
  2:{ exists (d1 ++ d2 ++ d3), (posts (d1 ++ d2)), (posts d3).
      rewrite Ht3, Ht2, Ht1, <- !app_assoc, !posts_app, Hp1, Hp2, Hid1.
      repeat split; done. }
  pose proof (grows_getLogs_processNetworkLogs env networkEvents RPC_URL
                finalized "eth_getBlockByNumber" w3) as (d4 & Ht4 & Hp4).
  exists (d1 ++ d2 ++ d3 ++ d4), (posts (d1 ++ d2)), (posts (d3 ++ d4)).
  rewrite Ht4, Ht3, Ht2, Ht1, <- !app_assoc, !posts_app, Hp1, Hp2, Hid1.
  repeat split; try done. by apply Forall_app.
Qed.

Lemma latest_block_is_asked_once_per_network_witness :
  getRpcUrl quiet "ethereum" = Ok "https://eth-mainnet.g.alchemy.com/v2/KEY"
  ∧ ∃ delta queries fetches,
      trace (snd (processLogs_network quiet ("ethereum", [uniswap; swaps])
                    (initial [uniswap; swaps])))
        = trace (initial [uniswap; swaps]) ++ delta
      ∧ posts delta = queries ++ fetches
      ∧ queries
        `prefix_of` [("https://eth-mainnet.g.alchemy.com/v2/KEY",
                      eth_blockNumber (requestId (initial [uniswap; swaps])));
                     ("https://eth-mainnet.g.alchemy.com/v2/KEY",
                      eth_getBlockByNumber
                        (requestId (initial [uniswap; swaps]) + 1))]
      ∧ queries ≠ []
      ∧ Forall is_getLogs fetches.
Proof.
  split; [reflexivity|].
  by apply (latest_block_is_asked_once_per_network quiet "ethereum").
Defined.







(** ** Which cursors exist *)

Global Instance same_events_preorder : PreOrder same_events.
Proof.
  split; [by intros w|]. intros w1 w2 w3 H1 H2. unfold same_events in *.
  congruence.
Qed.

Global Instance tracks_preorder (events0 : list Target.t) :
  PreOrder (tracks events0).
Proof.
  split.
  - intros w. split; [done|]. intros key ?. by left.
  - intros w1 w2 w3 [H1 H1'] [H2 H2']. split; [by eauto|].
    intros key [Hkey|Hkey]%H2'; [by apply H1'|by right].
Qed.

Lemma same_events_processLogs (env : Env) : preserves same_events (processLogs env).
Proof.
  assert (∀ e, preserves same_events (emit e)) as Hemit by done.
  assert (preserves same_events next_requestId) as Hid by done.
  assert (∀ r, preserves same_events (record_fetched r)) as Hrecord by done.
  assert (∀ key n, preserves same_events (set_lastProcessedBlock key n))
    as Hset by done.
  assert (∀ d, preserves same_events (supabase_insert env d)) as Hinsert by done.
  assert (∀ A (answer : list IO → string → Request → Axios A) url body,
            preserves same_events (axios_post answer url body)) as Hpost.
  { intros A answer url body w. unfold axios_post.
    by destruct (answer (trace w) url body). }
  assert (∀ logs event strategy,
            preserves same_events (insertLogs env logs event strategy))
    as HinsertLogs.
  { induction logs as [|logEntry rest IH]; intros event strategy;
      cbn [insertLogs]; unfold log;
      repeat first [ apply IH | apply Hemit | apply Hinsert | preserve_step ]. }
  assert (∀ networkEvents url latestBlock strategy,
            preserves same_events
              (processNetworkLogs env networkEvents url latestBlock strategy))
    as Hpass.
  { induction networkEvents as [|event rest IH]; intros url latestBlock strategy;
      cbn [processNetworkLogs]; unfold processNetworkLogs_body, getLogs, log;
      repeat first
        [ apply IH | apply HinsertLogs | apply Hemit | apply Hid | apply Hrecord
        | apply Hset | apply Hpost | preserve_step ]. }
  assert (∀ entries, preserves same_events (processLogs_networks env entries))
    as Hnetworks.
  { induction entries as [|[network networkEvents] rest IH];
      cbn [processLogs_networks];
      unfold processLogs_network, getLatestBlockNumber, console_error;
      repeat first
        [ apply IH | apply Hpass | apply Hemit | apply Hid | apply Hpost
        | preserve_step ]. }
  unfold processLogs, processLogs_try, console_error, log.
  repeat first [ apply Hnetworks | apply Hemit | preserve_step ].
Qed.

Lemma same_store_tracks (events0 : list Target.t) (w w' : World) :
  same_store w w' → tracks events0 w w'.
Proof.
  intros [Hcursors _]. unfold tracks. rewrite Hcursors.
  split; [done|]. intros key ?. by left.
Qed.

Lemma tracks_processNetworkLogs (env : Env) (events0 networkEvents : list Target.t)
    (RPC_URL : string) (latestBlock : number) (strategy : string) :
  strategy ∈ strategies →
  Forall (λ event, event ∈ events0) networkEvents →
  preserves (tracks events0)
    (processNetworkLogs env networkEvents RPC_URL latestBlock strategy).
Proof.
  intros Hstrategy.
  induction 1 as [|event rest Hevent _ IH]; cbn [processNetworkLogs].
  - apply preserves_ret, _.
  - apply preserves_bind; [apply _| |intros _; exact IH].
    intros w.
    destruct (body_outcome env w event RPC_URL strategy latestBlock)
      as [[_ ->]|[(_ & _ & Hstore & _)|(_ & _ & Hcursors)]].
    + reflexivity.
    + by apply same_store_tracks.
    + unfold tracks. rewrite Hcursors. split.
      * intros key Hkey. rewrite lookup_insert.
        by destruct (decide (cursorKey event strategy = key)).
      * intros key. rewrite lookup_insert.
        destruct (decide (cursorKey event strategy = key)) as [<-|]; [|by left].
        intros _. right. by exists event, strategy.
Qed.

Lemma tracks_processLogs_networks (env : Env) (events0 : list Target.t)
    (entries : list (string * list Target.t)) :
  Forall (λ entry, Forall (λ event, event ∈ events0) entry.2) entries →
  preserves (tracks events0) (processLogs_networks env entries).
Proof.
  assert ("eth_blockNumber" ∈ strategies) as Hhead
    by (unfold strategies; rewrite elem_of_cons; by left).
  assert ("eth_getBlockByNumber" ∈ strategies) as Hfinalized
    by (unfold strategies; rewrite !elem_of_cons; right; by left).
  induction 1 as [|[network networkEvents] rest Hentry _ IH];
    cbn [processLogs_networks].
  - apply preserves_ret, _.
  - apply preserves_bind; [apply _| |intros _; exact IH].
    unfold processLogs_network.
    repeat first
      [ by apply tracks_processNetworkLogs
      | (intros w; apply same_store_tracks, same_store_getLatestBlockNumber)
      | preserve_step ].
Qed.

Lemma reduce_rows_listed (events0 : list Target.t)
    (groups : list (string * list Target.t)) :
  reduce events0 [] = Ok groups →
  Forall (λ entry, Forall (λ event, event ∈ events0) entry.2)
    (Object_entries groups).
Proof.
  intros Hreduce.
  destruct (reduce_spec events0 [] [] grouped_nil) as [Hgroups _].
  rewrite Hreduce in Hgroups. destruct Hgroups as (Hnodup & _ & Hrows).
  apply Forall_forall. intros [chain rows] Hentry.
  rewrite (Object_entries_perm groups) in Hentry.
  apply (own_property_elem _ _ _ Hnodup) in Hentry.
  rewrite Hrows in Hentry. cbn [app] in Hentry.
  apply Forall_forall. intros event Hin.
  assert (event ∈ rows_on chain events0) as Hrow.
  { destruct (rows_on chain events0); [done|]. by injection Hentry as <-. }
  by apply list_elem_of_filter in Hrow as [_ ?].
Qed.

(** X19.  The poller never deletes a cursor and never creates one for a
    target that is not in the file: over any number of iterations, a key
    that has a cursor had one before or is the key of a listed row under
    one of the two strategies. *)
Theorem cursors_exist_for_listed_targets_only (env : Env) (n : nat) (w : World) :
  tracks (events w) w (snd (runContinuously env n w)).
Proof.
  revert w. induction n as [|n IH]; intros w; [reflexivity|].
  rewrite runContinuously_next.
  pose proof (same_events_processLogs env w) as Hevents.
  unfold same_events in Hevents.
  assert (tracks (events w) w (snd (processLogs env w))) as Hone.
  { assert (tracks (events w) w (snd (processLogs_try env w))) as Htry.
    { unfold processLogs_try, mbind, M_bind, get_events, lift.
      destruct (reduce (events w) []) as [groups|e] eqn:Hreduce; [|reflexivity].
      apply tracks_processLogs_networks. by apply reduce_rows_listed. }
    unfold processLogs, try_catch.
    destruct (processLogs_try env w) as [[[]|e] w1]; cbn [snd] in *; [done|].
    etrans; [exact Htry|]. by apply same_store_tracks. }
  etrans; [exact Hone|]. rewrite <- Hevents. apply IH.
Qed.

(** ** An iteration in which nothing fails *)

Section Healthy.
Context (env : Env).
Hypothesis Henv : healthy env.

Lemma healthy_latest (RPC_URL strategy : string) (w : World) :
  strategy ∈ strategies →
  ∃ L, fst (getLatestBlockNumber env RPC_URL strategy w) = Ok (Int L) ∧ 0 < L.
Proof.
  destruct Henv as (Hhead & Hfinalized & _).
  unfold strategies. rewrite !elem_of_cons, elem_of_nil.
  intros [->|[->|[]]];
    unfold getLatestBlockNumber, try_catch, mbind, M_bind, next_requestId,
      axios_post, mret, M_ret;
    cbn [String.eqb Ascii.eqb Bool.eqb]; world_simpl.
  - destruct (Hhead (trace w) RPC_URL (eth_blockNumber (requestId w)))
      as (s & L & -> & Hs & HL).
    exists (toDouble L). cbn. unfold parseInt. rewrite Hs.
    split; [done|].
    assert (1 ≤ toDouble L) by (apply toDouble_ge; [unfold MAX_EXACT|]; lia).
    lia.
  - destruct (Hfinalized (trace w) RPC_URL (eth_getBlockByNumber (requestId w)))
      as (s & L & -> & Hs & HL).
    exists (toDouble L). destruct s as [|c s]; [discriminate|]. cbn.
    unfold parseInt. rewrite Hs.
    split; [done|].
    assert (1 ≤ toDouble L) by (apply toDouble_ge; [unfold MAX_EXACT|]; lia).
    lia.
Qed.

Lemma healthy_turn (w : World) (event : Target.t) (RPC_URL strategy : string)
    (L : Z) :
  Target.event event ∈ known_events →
  fst (processNetworkLogs_body env event RPC_URL (Int L) strategy w) = Ok tt.
Proof.
  intros [topic Htopic]%getEventTopic_known.
  destruct (skipped w event strategy (Int L)) eqn:Hrun.
  { by rewrite body_skipped. }
  destruct Henv as (_ & _ & Hlogs).
  destruct (Hlogs
              (trace w
               ++ [Logged (processingMessage event strategy
                             (fromBlockIn w event strategy (Int L)) (Int L))])
              RPC_URL (getLogsRequest w event strategy (Int L) topic))
    as [logs Hans].
  by destruct (body_fetched env w event RPC_URL strategy (Int L) topic Hrun
                 Htopic logs Hans) as (delta & -> & _).
Qed.

Lemma turn_keeps_synchronised (w : World) (event : Target.t)
    (RPC_URL strategy key : string) (L : Z) :
  0 < L → synchronised w key →
  synchronised
    (snd (processNetworkLogs_body env event RPC_URL (Int L) strategy w)) key.
Proof.
  intros HL Hkey.
  destruct (body_outcome env w event RPC_URL strategy (Int L))
    as [[_ ->]|[(_ & _ & [Hstore _] & _)|(_ & _ & Hcursors)]]; [done| |].
  - unfold synchronised. by rewrite Hstore.
  - unfold synchronised. rewrite Hcursors, lookup_insert.
    destruct (decide (cursorKey event strategy = key)); [by exists L|done].
Qed.

Lemma pass_keeps_synchronised (networkEvents : list Target.t)
    (RPC_URL strategy key : string) (L : Z) :
  0 < L →
  ∀ w, synchronised w key →
    synchronised
      (snd (processNetworkLogs env networkEvents RPC_URL (Int L) strategy w)) key.
Proof.
  intros HL. induction networkEvents as [|event rest IH]; intros w Hkey; [done|].
  cbn [processNetworkLogs]. unfold mbind, M_bind.
  pose proof (turn_keeps_synchronised w event RPC_URL strategy key L HL Hkey).
  destruct (processNetworkLogs_body env event RPC_URL (Int L) strategy w)
    as [[[]|e] w1]; cbn [snd] in *; [by apply IH|done].
Qed.

Lemma healthy_pass (networkEvents : list Target.t) (RPC_URL strategy : string)
    (L : Z) :
  0 < L →
  Forall (λ event, Target.event event ∈ known_events) networkEvents →
  ∀ w,
    fst (processNetworkLogs env networkEvents RPC_URL (Int L) strategy w) = Ok tt
    ∧ Forall
        (λ event,
           synchronised
             (snd (processNetworkLogs env networkEvents RPC_URL (Int L)
                     strategy w))
             (cursorKey event strategy))
        networkEvents.
Proof.
  intros HL Hknown w.
  assert (fst (processNetworkLogs env networkEvents RPC_URL (Int L) strategy w)
          = Ok tt) as Hok.
  { revert w. induction Hknown as [|event rest Hevent _ IH]; intros w; [done|].
    cbn [processNetworkLogs]. unfold mbind, M_bind.
    pose proof (healthy_turn w event RPC_URL strategy L Hevent) as Hturn.
    destruct (processNetworkLogs_body env event RPC_URL (Int L) strategy w)
      as [[[]|e] w1]; [apply IH|discriminate]. }
  split; [done|].
  eapply Forall_impl;
    [apply (processNetworkLogs_settles env L networkEvents RPC_URL strategy);
     [lia|done]|].
  intros event (c & Hc & _ & Hle). exists c. split; [done|lia].
Qed.

Lemma same_store_synchronised (w w' : World) (key : string) :
  same_store w w' → synchronised w key → synchronised w' key.
Proof. intros [Hcursors _]. unfold synchronised. by rewrite Hcursors. Qed.

Lemma healthy_network (network : string) (networkEvents : list Target.t)
    (w : World) :
  network ∈ supported_chains →
  Forall (λ event, Target.event event ∈ known_events) networkEvents →
  fst (processLogs_network env (network, networkEvents) w) = Ok tt
  ∧ (∀ key, synchronised w key →
       synchronised (snd (processLogs_network env (network, networkEvents) w))
         key)
  ∧ ∀ event strategy,
      event ∈ networkEvents → strategy ∈ strategies →
      synchronised (snd (processLogs_network env (network, networkEvents) w))
        (cursorKey event strategy).
Proof.
  intros [RPC_URL Hurl]%(getRpcUrl_supported env) Hknown.
  assert ("eth_blockNumber" ∈ strategies) as Hhead
    by (unfold strategies; rewrite elem_of_cons; by left).
  assert ("eth_getBlockByNumber" ∈ strategies) as Hfinalized
    by (unfold strategies; rewrite !elem_of_cons; right; by left).
  unfold processLogs_network, mbind, M_bind, lift. rewrite Hurl.
  destruct (healthy_latest RPC_URL "eth_blockNumber" w Hhead) as (L1 & Hc1 & HL1).
  pose proof (same_store_getLatestBlockNumber env RPC_URL "eth_blockNumber" w)
    as Hs1.
  destruct (getLatestBlockNumber env RPC_URL "eth_blockNumber" w)
    as [[h|?] w1]; [|discriminate]. cbn [fst snd] in *. injection Hc1 as ->.
  destruct (healthy_latest RPC_URL "eth_getBlockByNumber" w1 Hfinalized)
    as (L2 & Hc2 & HL2).
  pose proof (same_store_getLatestBlockNumber env RPC_URL "eth_getBlockByNumber"
                w1) as Hs2.
  destruct (getLatestBlockNumber env RPC_URL "eth_getBlockByNumber" w1)
    as [[f|?] w2]; [|discriminate]. cbn [fst snd] in *. injection Hc2 as ->.
  destruct (healthy_pass networkEvents RPC_URL "eth_blockNumber" L1 HL1 Hknown w2)
    as [Hok1 Hsync1].
  pose proof (λ key, pass_keeps_synchronised networkEvents RPC_URL
                       "eth_blockNumber" key L1 HL1 w2) as Hkeep1.
  destruct (processNetworkLogs env networkEvents RPC_URL (Int L1)
              "eth_blockNumber" w2) as [[[]|?] w3]; [|discriminate].
  cbn [fst snd] in *.
  destruct (healthy_pass networkEvents RPC_URL "eth_getBlockByNumber" L2 HL2
              Hknown w3) as [Hok2 Hsync2].
  pose proof (λ key, pass_keeps_synchronised networkEvents RPC_URL
                       "eth_getBlockByNumber" key L2 HL2 w3) as Hkeep2.
  destruct (processNetworkLogs env networkEvents RPC_URL (Int L2)
              "eth_getBlockByNumber" w3) as [[[]|?] w4]; [|discriminate].
  cbn [fst snd] in *.
  split; [done|]. split.
  - intros key Hkey. apply Hkeep2, Hkeep1.
    by apply (same_store_synchronised w1 w2), (same_store_synchronised w w1).
  - intros event strategy Hin. unfold strategies.
    rewrite !elem_of_cons, elem_of_nil. intros [->|[->|[]]].
    + apply Hkeep2. by apply (proj1 (Forall_forall _ _) Hsync1).
    + by apply (proj1 (Forall_forall _ _) Hsync2).
Qed.

Lemma healthy_networks (entries : list (string * list Target.t)) :
  Forall
    (λ entry, entry.1 ∈ supported_chains
              ∧ Forall (λ event, Target.event event ∈ known_events) entry.2)
    entries →
  ∀ w,
    fst (processLogs_networks env entries w) = Ok tt
    ∧ (∀ key, synchronised w key →
         synchronised (snd (processLogs_networks env entries w)) key)
    ∧ ∀ entry event strategy,
        entry ∈ entries → event ∈ entry.2 → strategy ∈ strategies →
        synchronised (snd (processLogs_networks env entries w))
          (cursorKey event strategy).
Proof.
  induction 1 as [|[network networkEvents] rest [Hchain Hknown] _ IH]; intros w.
  - split; [done|]. split; [done|]. by intros ? ? ? ?%elem_of_nil.
  - cbn [processLogs_networks]. unfold mbind, M_bind. cbn [fst snd] in *.
    destruct (healthy_network network networkEvents w Hchain Hknown)
      as (Hok & Hkeep & Hsync).
    destruct (processLogs_network env (network, networkEvents) w)
      as [[[]|?] w1]; [|discriminate]. cbn [fst snd] in *.
    destruct (IH w1) as (Hok' & Hkeep' & Hsync').
    split; [done|]. split; [by eauto|].
    intros entry event strategy [->|Hin]%elem_of_cons Hevent Hstrategy.
    + apply Hkeep'. by apply Hsync.
    + by apply (Hsync' entry).
Qed.
End Healthy.

Lemma supported_chain_is_no_prototype_name (chain : string) :
  chain ∈ supported_chains → chain ∉ Object_prototype_names.
Proof.
  unfold supported_chains, Object_prototype_names.
  rewrite !elem_of_cons, !elem_of_nil.
  intros [->|[->|[->|[->|[->|[->|[]]]]]]] Hin;
    repeat (destruct Hin as [Hin|Hin]; [discriminate Hin|]); done.
Qed.

(** X20.  An iteration in which nothing fails brings every listed target up
    to date.  When every endpoint answers (the latest-block queries with
    positive heights, [eth_getLogs] with a list) and every row names a
    supported chain and a known event, the iteration throws nothing, and
    after it every row has a cursor under both strategies. *)
Theorem healthy_iteration_reaches_every_target (env : Env) (w : World) :
  healthy env →
  Forall
    (λ event, Target.chain event ∈ supported_chains
              ∧ Target.event event ∈ known_events)
    (events w) →
  fst (processLogs_try env w) = Ok tt
  ∧ ∀ event strategy,
      event ∈ events w → strategy ∈ strategies →
      synchronised (snd (processLogs env w)) (cursorKey event strategy).
Proof.
  intros Henv Hrows.
  destruct (reduce_spec (events w) [] [] grouped_nil) as [Hgroups Hiff].
  destruct (reduce (events w) []) as [groups|e] eqn:Hreduce.
  2:{ destruct (proj2 Hiff) as (event & Hin & Hproto); [eauto|].
      apply (proj1 (Forall_forall _ _) Hrows) in Hin as [Hchain _].
      by apply supported_chain_is_no_prototype_name in Hchain. }
  cbn [app] in Hgroups. destruct Hgroups as (Hnodup & _ & Hlookup).
  assert (∀ chain rows, (chain, rows) ∈ Object_entries groups
                        ↔ rows = rows_on chain (events w) ∧ rows ≠ []) as Hentry.
  { intros chain rows.
    rewrite (Object_entries_perm groups), (own_property_elem _ _ _ Hnodup),
      Hlookup.
    destruct (rows_on chain (events w)) as [|r rs].
    - split; [done|by intros [-> ?]].
    - split; [by intros [= <-]|by intros [-> _]]. }
  destruct (healthy_networks env Henv (Object_entries groups)) with (w := w)
    as (Hok & _ & Hsync).
  { apply Forall_forall. intros [chain rows] [-> Hne]%Hentry. cbn [fst snd].
    assert (Forall (λ event, Target.chain event = chain
                             ∧ Target.chain event ∈ supported_chains
                             ∧ Target.event event ∈ known_events)
              (rows_on chain (events w))) as Hall.
    { apply Forall_forall. intros event [Hc Hin]%list_elem_of_filter.
      split; [done|]. by apply (proj1 (Forall_forall _ _) Hrows). }
    split.
    - destruct (rows_on chain (events w)) as [|event rest]; [done|].
      apply Forall_cons in Hall as [(Hc & Hchain & _) _]. by rewrite <- Hc.
    - eapply Forall_impl; [exact Hall|]. by intros event (_ & _ & ?). }
  assert (processLogs_try env w = processLogs_networks env (Object_entries groups) w)
    as Htry.
  { unfold processLogs_try, mbind, M_bind, get_events, lift. by rewrite Hreduce. }
  rewrite Htry. split; [done|].
  assert (snd (processLogs env w)
          = snd (processLogs_networks env (Object_entries groups) w)) as ->.
  { unfold processLogs, try_catch. rewrite Htry.
    by destruct (processLogs_networks env (Object_entries groups) w)
      as [[[]|?] ?]. }
  intros event strategy Hin Hstrategy.
  apply (Hsync (Target.chain event, rows_on (Target.chain event) (events w)));
    [|by apply list_elem_of_filter|done].
  apply Hentry. split; [done|]. intros Hnil.
  assert (event ∈ rows_on (Target.chain event) (events w)) as Hrow
    by by apply list_elem_of_filter.
  rewrite Hnil in Hrow. by apply elem_of_nil in Hrow.
Qed.

Lemma quiet_is_healthy : healthy quiet.
Proof.
  split; [|split]; intros history url body; cbn.
  - by exists "0x64", 100.
  - by exists "0x64", 100.
  - by exists [].
Qed.

Lemma healthy_iteration_reaches_every_target_witness :
  fst (processLogs_try quiet (initial [uniswap])) = Ok tt
  ∧ ∀ event strategy,
      event ∈ events (initial [uniswap]) → strategy ∈ strategies →
      synchronised (snd (processLogs quiet (initial [uniswap])))
        (cursorKey event strategy).
Proof.
  apply (healthy_iteration_reaches_every_target quiet (initial [uniswap])
           quiet_is_healthy).
  repeat constructor.
Defined.

(** ** The cursor along a run, on an example *)

Lemma cursor_never_decreases_witness :
  heights_from 0 quiet
  ∧ never_decreases (snd (runContinuously quiet 1 (initial [uniswap])))
      (snd (runContinuously quiet 2
              (snd (runContinuously quiet 1 (initial [uniswap]))))).
Proof.
  assert (heights_from 0 quiet) as Henv.
  { split; intros history url body; cbn; exists 100; by split. }
  split; [exact Henv|].
  apply (cursor_never_decreases quiet 2
           (snd (runContinuously quiet 1 (initial [uniswap]))) Henv).
  apply (advances_runContinuously quiet 0 1
           ltac:(unfold MAX_EXACT; lia) Henv (initial [uniswap])).
  apply initial_consistent.
Defined.

Lemma ranges_ascend_for_positive_heights_witness :
  heights_from 1 quiet
  ∧ heights_below MAX_EXACT quiet
  ∧ ranges_ascend (snd (runContinuously quiet 3 (initial [uniswap]))).
Proof.
  assert (heights_from 1 quiet) as Henv.
  { split; intros history url body; cbn; exists 100; by split. }
  assert (heights_below MAX_EXACT quiet) as Hbelow.
  { split; intros history url body s L; cbn; intros [= <-] [= <-]; reflexivity. }
  split; [exact Henv|]. split; [exact Hbelow|].
  apply (ranges_ascend_for_positive_heights quiet 3 [uniswap] Henv Hbelow).
Defined.
